(** * anymail.utils: value merging, dictionary lookup, attachments, settings

    A shallow embedding of [anymail/utils.py] and the properties its
    specification states about [combine], [last], [getfirst],
    [Attachment.__init__], [get_content_disposition] and
    [get_anymail_setting].

    Python objects live in a store: dictionaries and lists are mutable
    objects reached through references, so that copying, aliasing and
    in-place updates ([dict.update], [dict.pop]) are visible in the
    model.  Code runs in a state-and-exception monad over that store. *)

From Stdlib Require Import ZArith String Ascii List.
From stdpp Require Import gmap strings list fin_maps.

Local Open Scope Z_scope.
Local Open Scope string_scope.

(** ** Python values and the object store *)

Abbreviation loc := positive.

(** The values the module's helpers are applied to.  [VUnset] is the
    module-level sentinel [UNSET = object()]; [VNone] is [None]; integers
    and text strings are the immutable scalars; [VRef] points to an object
    of the store: a dictionary, a list or a tuple.  Dictionary keys are
    text strings. *)
Inductive val : Type :=
  | VUnset
  | VNone
  | VInt (n : Z)
  | VStr (s : string)
  | VRef (l : loc).

Inductive seq_kind : Type := KList | KTuple.

Inductive object : Type :=
  | ODict (d : gmap string val)
  | OSeq (kind : seq_kind) (xs : list val).

#[global] Instance seq_kind_eq_dec : EqDecision seq_kind.
Proof. solve_decision. Defined.

Abbreviation heap := (gmap loc object).

#[global] Instance val_eq_dec : EqDecision val.
Proof. solve_decision. Defined.

(** Exceptions raised by the modelled code.  [DanglingRef] is not a Python
    exception: it marks a reference to a location the store does not
    hold, which no Python program can build. *)
Inductive exn : Type :=
  | AttributeError
  | KeyError (msg : string)
  | TypeError
  | AnymailConfigurationError (msg : string)
  | OtherError (e : nat)
  | DanglingRef.

Inductive outcome (A : Type) : Type :=
  | Return (a : A)
  | Raise (e : exn).
Arguments Return {A} a.
Arguments Raise {A} e.

(** ** The state-and-exception monad *)

Definition Py (A : Type) : Type := heap -> outcome A * heap.

Definition ret {A} (a : A) : Py A := fun h => (Return a, h).

Definition raise {A} (e : exn) : Py A := fun h => (Raise e, h).

Definition bind {A B} (m : Py A) (k : A -> Py B) : Py B :=
  fun h =>
    match m h with
    | (Return a, h') => k a h'
    | (Raise e, h') => (Raise e, h')
    end.

(** [try: m except <catches>: handler].  The handler runs in the store
    the failed body left behind. *)
Definition try_except {A} (m : Py A) (catches : exn -> bool) (handler : Py A) : Py A :=
  fun h =>
    match m h with
    | (Return a, h') => (Return a, h')
    | (Raise e, h') => if catches e then handler h' else (Raise e, h')
    end.

Declare Scope py_scope.
Delimit Scope py_scope with py.
Notation "x <- m ;; k" := (bind m (fun x => k))
  (at level 100, m at next level, k at level 200, right associativity) : py_scope.
Notation "m ;;; k" := (bind m (fun _ => k))
  (at level 100, k at level 200, right associativity) : py_scope.
Local Open Scope py_scope.

Definition is_AttributeError (e : exn) : bool :=
  match e with AttributeError => true | _ => false end.

Definition is_KeyError (e : exn) : bool :=
  match e with KeyError _ => true | _ => false end.

Definition is_AttributeError_or_KeyError (e : exn) : bool :=
  is_AttributeError e || is_KeyError e.

(** Allocation of a new object at a location the store does not use. *)
Definition alloc (o : object) : Py loc :=
  fun h => let l := fresh (dom h) in (Return l, <[l := o]> h).

Definition store (l : loc) (o : object) : Py unit :=
  fun h => (Return tt, <[l := o]> h).

Definition deref (l : loc) : Py object :=
  fun h => match h !! l with
           | Some o => (Return o, h)
           | None => (Raise DanglingRef, h)
           end.

Module utils.

(** [dct[key]] *)
Definition py_getitem (dct : val) (key : string) : Py val :=
  match dct with
  | VRef l =>
      o <- deref l ;;
      match o with
      | ODict d =>
          match d !! key with
          | Some v => ret v
          | None => raise (KeyError key)
          end
      | OSeq _ _ => raise TypeError
      end
  | _ => raise TypeError
  end.

(** [kwargs.pop(name)]: removes the key from the dictionary, in place, and
    returns its value.  [None], integers, strings and tuples have no
    [pop]; [list.pop] wants an integer index. *)
Definition py_pop (kwargs : val) (name : string) : Py val :=
  match kwargs with
  | VRef l =>
      o <- deref l ;;
      match o with
      | ODict d =>
          match d !! name with
          | Some v => store l (ODict (delete name d)) ;;; ret v
          | None => raise (KeyError name)
          end
      | OSeq KList _ => raise TypeError
      | OSeq KTuple _ => raise AttributeError
      end
  | _ => raise AttributeError
  end.

Section Runtime.

(** Two facts about the Python runtime that the module does not fix.
    [list_has_copy]: lists have a [copy] method (Python 3) or not
    (Python 2); the module supports both through [six].
    [update_from_iterable h d v]: what [dict.update] does to a receiver
    holding [d] when its argument [v] is not a dictionary (it iterates
    over [v], expecting key/value pairs): the receiver's new entries and
    the exception raised, if any. *)
Variable list_has_copy : bool.
Variable update_from_iterable :
  heap -> gmap string val -> val -> gmap string val * option exn.

(** [v.copy()] *)
Definition py_copy (v : val) : Py val :=
  match v with
  | VRef l =>
      o <- deref l ;;
      match o with
      | ODict d => l' <- alloc (ODict d) ;; ret (VRef l')
      | OSeq KList xs =>
          if list_has_copy
          then l' <- alloc (OSeq KList xs) ;; ret (VRef l')
          else raise AttributeError
      | OSeq KTuple _ => raise AttributeError
      end
  | _ => raise AttributeError
  end.

(** [r.update(v)]: only dictionaries have the method.  The receiver is
    updated in place. *)
Definition py_update (r v : val) : Py unit :=
  match r with
  | VRef l =>
      o <- deref l ;;
      match o with
      | ODict d =>
          arg <- match v with
                 | VRef l2 => o2 <- deref l2 ;; ret (Some o2)
                 | _ => ret None
                 end ;;
          match arg with
          | Some (ODict d2) => store l (ODict (d2 ∪ d))
          | _ =>
              fun h =>
                let '(d', err) := update_from_iterable h d v in
                (match err with Some e => Raise e | None => Return tt end,
                 <[l := ODict d']> h)
          end
      | OSeq _ _ => raise AttributeError
      end
  | _ => raise AttributeError
  end.

(** [r + v]: integer addition, concatenation of two strings, of two
    lists or of two tuples (a new object); anything else is a
    [TypeError]. *)
Definition py_add (r v : val) : Py val :=
  match r, v with
  | VInt a, VInt b => ret (VInt (a + b))
  | VStr a, VStr b => ret (VStr (a ++ b))
  | VRef l1, VRef l2 =>
      o1 <- deref l1 ;;
      o2 <- deref l2 ;;
      match o1, o2 with
      | OSeq k1 xs, OSeq k2 ys =>
          if decide (k1 = k2)
          then l' <- alloc (OSeq k1 (xs ++ ys)) ;; ret (VRef l')
          else raise TypeError
      | _, _ => raise TypeError
      end
  | _, _ => raise TypeError
  end.

(** *** combine *)

(** One iteration of the loop of [combine]. *)
Definition combine_step (result value : val) : Py val :=
  match value with
  | VNone => ret VUnset
  | VUnset => ret result
  | _ =>
      match result with
      | VUnset =>
          try_except (py_copy value) is_AttributeError (ret value)
      | _ =>
          try_except (py_update result value ;;; ret result)
                     is_AttributeError
                     (py_add result value)
      end
  end.

Fixpoint combine_loop (result : val) (args : list val) : Py val :=
  match args with
  | [] => ret result
  | value :: rest =>
      result' <- combine_step result value ;;
      combine_loop result' rest
  end.

Definition combine (args : list val) : Py val :=
  combine_loop VUnset args.

(** *** last *)

Fixpoint last_loop (reversed_args : list val) : Py val :=
  match reversed_args with
  | [] => ret VUnset
  | value :: rest =>
      match value with
      | VNone => ret VUnset
      | VUnset => last_loop rest
      | _ => ret value
      end
  end.

Definition last (args : list val) : Py val :=
  last_loop (rev args).

(** *** getfirst *)

Fixpoint getfirst_loop (dct : val) (keys : list string) : Py (option val) :=
  match keys with
  | [] => ret None
  | key :: rest =>
      try_except (v <- py_getitem dct key ;; ret (Some v))
                 is_KeyError
                 (getfirst_loop dct rest)
  end.

Definition getfirst (dct : val) (keys : list string) (default : val) : Py val :=
  found <- getfirst_loop dct keys ;;
  match found with
  | Some v => ret v
  | None =>
      match default with
      | VUnset =>
          raise (KeyError ("None of " ++ String.concat ", " keys ++ " found in dict"))
      | _ => ret default
      end
  end.

End Runtime.

(** *** Text helpers ([str.lower], [str.upper], [str.partition],
    [str.strip]) on ASCII text *)

Definition ascii_lower (c : ascii) : ascii :=
  let n := nat_of_ascii c in
  if ((65 <=? n) && (n <=? 90))%nat then ascii_of_nat (n + 32) else c.

Definition ascii_upper (c : ascii) : ascii :=
  let n := nat_of_ascii c in
  if ((97 <=? n) && (n <=? 122))%nat then ascii_of_nat (n - 32) else c.

Fixpoint lower (s : string) : string :=
  match s with
  | EmptyString => EmptyString
  | String c r => String (ascii_lower c) (lower r)
  end.

Fixpoint upper (s : string) : string :=
  match s with
  | EmptyString => EmptyString
  | String c r => String (ascii_upper c) (upper r)
  end.

(** [s.partition(sep)[0]]: the text before the first [sep], all of [s]
    when there is none. *)
Fixpoint partition_head (sep : ascii) (s : string) : string :=
  match s with
  | EmptyString => EmptyString
  | String c r => if Ascii.eqb c sep then EmptyString else String c (partition_head sep r)
  end.

(** The ASCII characters [str.strip()] removes from a text string:
    tab to carriage return, the four separators 28 to 31, and space. *)
Definition isspace (c : ascii) : bool :=
  let n := nat_of_ascii c in
  ((9 <=? n) && (n <=? 13) || (28 <=? n) && (n <=? 32))%nat.

Fixpoint lstrip (s : string) : string :=
  match s with
  | EmptyString => EmptyString
  | String c r => if isspace c then lstrip r else s
  end.

Definition strip (s : string) : string :=
  String.rev (lstrip (String.rev (lstrip s))).

Definition startswith (c : ascii) (s : string) : bool :=
  match s with
  | String c' _ => Ascii.eqb c c'
  | EmptyString => false
  end.

Definition endswith (c : ascii) (s : string) : bool :=
  startswith c (String.rev s).

(** [s[1:-1]] *)
Definition strip_ends (s : string) : string :=
  String.substring 1 (String.length s - 2) s.

(** [s.replace(a b, new)] for a pattern of two characters. *)
Fixpoint replace2 (a b : ascii) (new : string) (s : string) : string :=
  match s with
  | EmptyString => EmptyString
  | String c r =>
      match r with
      | EmptyString => s
      | String c' r' =>
          if Ascii.eqb c a && Ascii.eqb c' b
          then new ++ replace2 a b new r'
          else String c (replace2 a b new r)
      end
  end.

Definition dquote : ascii := "034"%char.
Definition backslash : ascii := "092"%char.

(** [email.utils.unquote] of the Python standard library:
    [if len(str) > 1:] strip enclosing double quotes (and unescape
    backslashes and quotes inside), else strip enclosing angle brackets. *)
Definition unquote (str : string) : string :=
  if (1 <? String.length str)%nat then
    if startswith dquote str && endswith dquote str then
      replace2 backslash dquote (String dquote EmptyString)
        (replace2 backslash backslash (String backslash EmptyString)
           (strip_ends str))
    else if startswith "<"%char str && endswith ">"%char str then
      strip_ends str
    else str
  else str.

(** *** MIME parts and attachments *)

Inductive payload : Type :=
  | Bytes (b : list Byte.byte)
  | Text (s : string)
  | NoPayload.

(** What the module reads of an [email.mime.base.MIMEBase] object: its
    header list, and the results of its [get_filename()],
    [get_payload(decode=True)] and [get_content_type()] methods. *)
Record MIMEBase : Type := {
  headers : list (string * string);
  get_filename : option string;
  get_payload : payload;
  get_content_type : string
}.

(** [mimeobj.get(name)] and [mimeobj[name]]: the first header of that
    name, compared without regard to case, or [None]. *)
Definition mime_get (mimeobj : MIMEBase) (name : string) : option string :=
  snd <$> List.find (fun kv => String.eqb (lower (fst kv)) (lower name))
                    (headers mimeobj).

Definition get_content_disposition (mimeobj : MIMEBase) : option string :=
  match mime_get mimeobj "content-disposition" with
  | None => None
  | Some value => Some (lower (strip (partition_head ";"%char value)))
  end.

(** The [attachment] argument of [Attachment]: a [MIMEBase] object or a
    tuple [(filename, content, mimetype)]. *)
Inductive attachment_arg : Type :=
  | OfMIMEBase (m : MIMEBase)
  | OfTuple (name : option string) (content : payload) (mimetype : option string).

Module Attachment.

Record t : Type := {
  _attachment : attachment_arg;
  encoding : string;
  inline : bool;
  content_id : option string;
  cid : string;
  name : option string;
  content : payload;
  mimetype : string
}.

Section Init.

(** [mimetypes.guess_type(name)[0]] and Django's
    [DEFAULT_ATTACHMENT_MIME_TYPE]. *)
Variable guess_type : string -> option string.
Variable DEFAULT_ATTACHMENT_MIME_TYPE : string.

(** The assignments of [__init__] before the mimetype is guessed: the
    values of [inline], [content_id], [cid], [name], [content] and
    [mimetype]. *)
Definition init_fields (attachment : attachment_arg)
  : bool * option string * string * option string * payload * option string :=
  match attachment with
  | OfMIMEBase m =>
      let name := get_filename m in
      let content := get_payload m in
      let mimetype := Some (get_content_type m) in
      if bool_decide (get_content_disposition m = Some "inline") then
        let content_id := mime_get m "Content-ID" in
        let cid := match content_id with
                   | Some c => unquote c
                   | None => ""
                   end in
        (true, content_id, cid, name, content, mimetype)
      else
        (false, None, "", name, content, mimetype)
  | OfTuple name content mimetype =>
      (false, None, "", name, content, mimetype)
  end.

Definition __init__ (attachment : attachment_arg) (encoding : string) : t :=
  let '(inline, content_id, cid, name, content, mimetype) := init_fields attachment in
  let mimetype :=
    match mimetype, name with
    | None, Some n => guess_type n
    | _, _ => mimetype
    end in
  let mimetype :=
    match mimetype with
    | None => DEFAULT_ATTACHMENT_MIME_TYPE
    | Some mt => mt
    end in
  {| _attachment := attachment; encoding := encoding; inline := inline;
     content_id := content_id; cid := cid; name := name; content := content;
     mimetype := mimetype |}.

End Init.

End Attachment.

(** *** get_anymail_setting *)

Section Settings.

(** [django.conf.settings]: the value of each attribute it has. *)
Variable settings : gmap string val.

Definition getattr_settings (attr : string) : Py val :=
  match settings !! attr with
  | Some v => ret v
  | None => raise AttributeError
  end.

(** The name of the setting: [<ESP_NAME>_<NAME>], or [<NAME>]. *)
Definition setting_name (esp_name : option string) (name : string) : string :=
  match esp_name with
  | Some esp => upper esp ++ "_" ++ upper name
  | None => upper name
  end.

Definition configuration_message (setting : string) (allow_bare : bool) : string :=
  let anymail_setting := "ANYMAIL_" ++ setting in
  let message := "You must set " ++ anymail_setting ++ " or ANYMAIL = {'" ++ setting ++ "': ...}" in
  let message := if allow_bare then message ++ " or " ++ setting else message in
  message ++ " in your Django settings".

(** The first [try] block: the value popped from [kwargs], unless there
    is none or it is a [None] username or password. *)
Definition from_kwargs (name : string) (kwargs : val) : Py (option val) :=
  try_except
    (value <- py_pop kwargs name ;;
     if bool_decide (name = "username" \/ name = "password") then
       match value with
       | VNone => ret None
       | _ => ret (Some value)
       end
     else ret (Some value))
    is_AttributeError_or_KeyError
    (ret None).

(** The part of [get_anymail_setting] after the first [try] block: the
    lookups in the settings, the default and the error. *)
Definition from_settings (name : string) (default : val)
    (esp_name : option string) (allow_bare : bool) : Py val :=
  let setting := setting_name esp_name name in
  let anymail_setting := "ANYMAIL_" ++ setting in
  try_except
    (anymail <- getattr_settings "ANYMAIL" ;; py_getitem anymail setting)
    is_AttributeError_or_KeyError
    (try_except
       (getattr_settings anymail_setting)
       is_AttributeError
       (bare <- (if allow_bare
                 then try_except (v <- getattr_settings setting ;; ret (Some v))
                                 is_AttributeError (ret None)
                 else ret None) ;;
        match bare with
        | Some v => ret v
        | None =>
            match default with
            | VUnset =>
                raise (AnymailConfigurationError
                         (configuration_message setting allow_bare))
            | _ => ret default
            end
        end)).

Definition get_anymail_setting (name : string) (default : val)
    (esp_name : option string) (kwargs : val) (allow_bare : bool) : Py val :=
  found <- from_kwargs name kwargs ;;
  match found with
  | Some value => ret value
  | None => from_settings name default esp_name allow_bare
  end.

End Settings.

(** *** collect_all_methods *)

Section Methods.

(** Classes and the values of their attributes.  [mro cls] is
    [cls.__mro__]; [getattr ancestor method_name] is the attribute that
    [getattr(ancestor, method_name)] finds, [None] when it raises
    [AttributeError].  Attribute values are compared with [==]. *)
Context {class method : Type} `{EqDecision method}.
Variable mro : class -> list class.
Variable getattr : class -> string -> option method.

Fixpoint collect_loop (ancestors : list class) (method_name : string)
    (methods : list method) : list method :=
  match ancestors with
  | [] => methods
  | ancestor :: rest =>
      match getattr ancestor method_name with
      | None => collect_loop rest method_name methods
      | Some validator =>
          if decide (validator ∈ methods)
          then collect_loop rest method_name methods
          else collect_loop rest method_name (methods ++ [validator])
      end
  end.

Definition collect_all_methods (cls : class) (method_name : string) : list method :=
  collect_loop (mro cls) method_name [].

End Methods.

(** *** ParsedEmail *)

Module ParsedEmail.

Record t : Type := {
  address : string;
  _name : option string;
  _email : option string
}.

Section Parsed.

(** Django's [sanitize_address] (it may raise) and [email.utils.parseaddr]. *)
Variable sanitize_address : string -> string -> outcome string.
Variable parseaddr : string -> string * string.

Definition __init__ (address encoding : string) : outcome t :=
  match sanitize_address address encoding with
  | Return a => Return {| address := a; _name := None; _email := None |}
  | Raise e => Raise e
  end.

(** [_parse] fills the two fields once; the object after the call is
    returned. *)
Definition _parse (self : t) : t :=
  match _email self with
  | None =>
      let '(n, e) := parseaddr (address self) in
      {| address := address self; _name := Some n; _email := Some e |}
  | Some _ => self
  end.

Definition __str__ (self : t) : string := address self.

(** The properties [name] and [email]: the object after the access and
    the value read. *)
Definition name (self : t) : t * option string :=
  let self := _parse self in (self, _name self).

Definition email (self : t) : t * option string :=
  let self := _parse self in (self, _email self).

End Parsed.

End ParsedEmail.

End utils.

(** ** Vocabulary of the properties *)

(** [h'] keeps every object of [h] as it is. *)
Definition preserves (h h' : heap) : Prop :=
  forall l o, h !! l = Some o -> h' !! l = Some o.

(** A result that is a dictionary of [h] is not an object of [h0]. *)
Definition fresh_dict (h0 h : heap) (r : val) : Prop :=
  forall l d, r = VRef l -> h !! l = Some (ODict d) -> h0 !! l = None.

(** An argument that is not an object of the store: a scalar, [None] or
    [UNSET]. *)
Definition is_scalar (v : val) : bool :=
  match v with
  | VRef _ => false
  | _ => true
  end.

Definition is_unset (v : val) : bool :=
  match v with
  | VUnset => true
  | _ => false
  end.

(** No real value of [args] follows another real value without a [None]
    between them ([pending]: a real value came before [args], with no
    [None] since): [combine] has nothing to merge. *)
Fixpoint no_merge (pending : bool) (args : list val) : bool :=
  match args with
  | [] => true
  | VNone :: rest => no_merge false rest
  | VUnset :: rest => no_merge pending rest
  | _ :: rest => negb pending && no_merge true rest
  end.

(** The first of the sources that has a value. *)
Fixpoint first_some (sources : list (option val)) : option val :=
  match sources with
  | [] => None
  | Some v :: _ => Some v
  | None :: rest => first_some rest
  end.

(** The resolution order of the specification: the value from [kwargs],
    the entry of the settings mapping, the [ANYMAIL_]-prefixed setting,
    the bare setting when [allow_bare], then the default, else a
    configuration error naming the settings that were tried. *)
Definition resolved (from_kwargs nested flat bare : option val)
    (allow_bare : bool) (default : val) (setting : string) : outcome val :=
  match first_some [from_kwargs; nested; flat; if allow_bare then bare else None] with
  | Some v => Return v
  | None =>
      match default with
      | VUnset =>
          Raise (AnymailConfigurationError
                   ("You must set ANYMAIL_" ++ setting
                    ++ " or ANYMAIL = {'" ++ setting ++ "': ...}"
                    ++ (if allow_bare then " or " ++ setting else "")
                    ++ " in your Django settings"))
      | _ => Return default
      end
  end.

(** [kwargs] is [None] (then [d] is empty) or a dictionary holding [d]. *)
Definition kwargs_holds (h : heap) (kwargs : val) (d : gmap string val) : Prop :=
  (kwargs = VNone /\ d = ∅) \/
  (exists l, kwargs = VRef l /\ h !! l = Some (ODict d)).

(** [settings.ANYMAIL] is not set (then [anymail] is empty) or is a
    dictionary holding [anymail]. *)
Definition anymail_holds (settings : gmap string val) (h : heap)
    (anymail : gmap string val) : Prop :=
  (settings !! "ANYMAIL" = None /\ anymail = ∅) \/
  (exists la, settings !! "ANYMAIL" = Some (VRef la) /\ h !! la = Some (ODict anymail)).

(** The store after [name] was popped from the dictionary [kwargs]. *)
Definition popped (h : heap) (kwargs : val) (name : string) : heap :=
  match kwargs with
  | VRef l =>
      match h !! l with
      | Some (ODict d) => <[l := ODict (delete name d)]> h
      | _ => h
      end
  | _ => h
  end.

(** ** Concrete inputs for the examples *)

(** A [dict.update] that takes every argument that is not a dictionary
    for a non-iterable one: the receiver is unchanged and [TypeError] is
    raised, as for [d.update(5)]. *)
Definition update_rejects : heap -> gmap string val -> val -> gmap string val * option exn :=
  fun _ d _ => (d, Some TypeError).

Definition dict_a : gmap string val := <["a" := VInt 1]> (<["b" := VInt 2]> ∅).
Definition dict_b : gmap string val := <["b" := VInt 3]> (<["c" := VInt 4]> ∅).

(** A store with the dictionaries [{'a': 1, 'b': 2}] and
    [{'b': 3, 'c': 4}] and the lists [[1, 2]] and [[3, 4]]. *)
Definition example_store : heap :=
  <[1%positive := ODict dict_a]>
    (<[2%positive := ODict dict_b]>
       (<[3%positive := OSeq KList [VInt 1; VInt 2]]>
          (<[4%positive := OSeq KList [VInt 3; VInt 4]]> ∅))).

(** An inline MIME part with [Content-ID: <abc>]. *)
Definition inline_part : utils.MIMEBase :=
  {| utils.headers := [("Content-Type", "image/png");
                       ("Content-Disposition", "inline; filename=logo.png");
                       ("Content-ID", "<abc>")];
     utils.get_filename := Some "logo.png";
     utils.get_payload := utils.Bytes [];
     utils.get_content_type := "image/png" |}.

(** Settings with a Mailgun key and a SendGrid user name in the
    [ANYMAIL] dictionary (at location 2 of [settings_store]), and a
    Mailgun key as [ANYMAIL_]-prefixed and as bare setting. *)
Definition example_settings : gmap string val :=
  <["ANYMAIL" := VRef 2%positive]>
    (<["ANYMAIL_MAILGUN_API_KEY" := VStr "flat"]>
       (<["MAILGUN_API_KEY" := VStr "bare"]> ∅)).

Definition anymail_dict : gmap string val :=
  <["MAILGUN_API_KEY" := VStr "nested"]> (<["SENDGRID_USERNAME" := VStr "user"]> ∅).

Definition api_key_kwargs : gmap string val := <["api_key" := VStr "kw"]> ∅.
Definition null_username_kwargs : gmap string val := <["username" := VNone]> ∅.

(** Location 1: the [kwargs] of the call; location 2: [settings.ANYMAIL]. *)
Definition settings_store (kwargs : gmap string val) : heap :=
  <[1%positive := ODict kwargs]> (<[2%positive := ODict anymail_dict]> ∅).

(** ** Vocabulary of the further properties *)

(** A real value: neither [UNSET] nor [None]. *)
Definition is_real (v : val) : bool :=
  match v with
  | VUnset | VNone => false
  | _ => true
  end.

(** Two scalars that [+] accepts together: two integers or two strings. *)
Definition same_scalar_kind (a b : val) : bool :=
  match a, b with
  | VInt _, VInt _ => true
  | VStr _, VStr _ => true
  | _, _ => false
  end.

(** The entries of [d0] updated with those of the dictionaries of
    [rest], in order. *)
Definition merged (d0 : gmap string val) (rest : list (loc * gmap string val))
  : gmap string val :=
  foldl (fun acc ld => ld.2 ∪ acc) d0 rest.

(** [dct] is anything but a dictionary: a scalar, [None], [UNSET], a list
    or a tuple. *)
Definition not_a_mapping (h : heap) (dct : val) : Prop :=
  match dct with
  | VRef l => exists kind xs, h !! l = Some (OSeq kind xs)
  | _ => True
  end.

(** [c] occurs in [s]. *)
Fixpoint has_char (c : ascii) (s : string) : bool :=
  match s with
  | EmptyString => false
  | String c' r => Ascii.eqb c c' || has_char c r
  end.


(** ** Concrete inputs for the further examples *)

(** A part sent as attachment that has a [Content-ID] all the same. *)
Definition attached_part : utils.MIMEBase :=
  {| utils.headers := [("Content-Disposition", "attachment; filename=report.pdf");
                       ("Content-ID", "<report>")];
     utils.get_filename := Some "report.pdf";
     utils.get_payload := utils.Bytes [];
     utils.get_content_type := "application/pdf" |}.

(** An inline part whose [Content-ID] is enclosed in double quotes. *)
Definition quoted_part : utils.MIMEBase :=
  {| utils.headers := [("Content-Disposition", "inline");
                       ("Content-ID", String utils.dquote ("abc" ++ String utils.dquote ""))];
     utils.get_filename := None;
     utils.get_payload := utils.Bytes [];
     utils.get_content_type := "image/png" |}.

(** Settings whose [ANYMAIL] is [None]. *)
Definition null_anymail_settings : gmap string val :=
  <["ANYMAIL" := VNone]> (<["ANYMAIL_MAILGUN_API_KEY" := VStr "flat"]> ∅).

Definition username_kwargs : gmap string val := <["username" := VStr "joe"]> ∅.

(** Three classes, 0 derived from 1 derived from 2, each defining the
    method itself; in [inherited_getattr] class 1 inherits it from
    class 2. *)
Definition chain_mro (cls : nat) : list nat :=
  match cls with
  | 0%nat => [0; 1; 2]%nat
  | 1%nat => [1; 2]%nat
  | _ => [cls]
  end.

Definition own_getattr (cls : nat) (method_name : string) : option nat :=
  if String.eqb method_name "validate" then Some cls else None.

Definition inherited_getattr (cls : nat) (method_name : string) : option nat :=
  if String.eqb method_name "validate"
  then Some (if Nat.eqb cls 1 then 2%nat else cls)
  else None.

(** A [sanitize_address] that accepts every address as it is, and a
    [parseaddr] for addresses without display name. *)
Definition accept_address (address encoding : string) : outcome string :=
  Return address.

Definition bare_parseaddr (address : string) : string * string := ("", address).

(** * Properties *)

(** ** Running monadic code *)

Section Run.
Context {A B : Type}.

Lemma bind_return (m : Py A) (k : A -> Py B) h a h' :
  m h = (Return a, h') -> bind m k h = k a h'.
Proof. unfold bind. intros ->. reflexivity. Qed.

Lemma bind_raise (m : Py A) (k : A -> Py B) h e h' :
  m h = (Raise e, h') -> bind m k h = (Raise e, h').
Proof. unfold bind. intros ->. reflexivity. Qed.

Lemma try_return (m handler : Py A) catches h a h' :
  m h = (Return a, h') -> try_except m catches handler h = (Return a, h').
Proof. unfold try_except. intros ->. reflexivity. Qed.

Lemma try_caught (m handler : Py A) catches h e h' :
  m h = (Raise e, h') -> catches e = true ->
  try_except m catches handler h = handler h'.
Proof. unfold try_except. intros -> ->. reflexivity. Qed.

Lemma try_uncaught (m handler : Py A) catches h e h' :
  m h = (Raise e, h') -> catches e = false ->
  try_except m catches handler h = (Raise e, h').
Proof. unfold try_except. intros -> ->. reflexivity. Qed.

End Run.

Lemma fresh_lookup (h : heap) : h !! fresh (dom h) = None.
Proof. apply not_elem_of_dom, is_fresh. Qed.

Lemma deref_some (h : heap) l o : h !! l = Some o -> deref l h = (Return o, h).
Proof. unfold deref. intros ->. reflexivity. Qed.

Lemma lookup_alloc_old (h : heap) l o o' :
  h !! l = Some o -> <[fresh (dom h) := o']> h !! l = Some o.
Proof.
  intros H. rewrite lookup_insert_ne; [exact H|].
  intros E. rewrite <- E, fresh_lookup in H. discriminate.
Qed.

Lemma preserves_refl h : preserves h h.
Proof. intros l o H. exact H. Qed.

Lemma preserves_trans h1 h2 h3 : preserves h1 h2 -> preserves h2 h3 -> preserves h1 h3.
Proof. intros H12 H23 l o H. apply H23, H12, H. Qed.

Lemma preserves_alloc h o : preserves h (<[fresh (dom h) := o]> h).
Proof. intros l o' H. apply lookup_alloc_old, H. Qed.

Lemma preserves_insert_new (h0 h : heap) l o :
  preserves h0 h -> h0 !! l = None -> preserves h0 (<[l := o]> h).
Proof.
  intros P N l' o' H. rewrite lookup_insert_ne; [apply P, H|].
  intros ->. rewrite N in H. discriminate.
Qed.

Section RuntimeFacts.

Variable list_has_copy : bool.
Variable update_from_iterable :
  heap -> gmap string val -> val -> gmap string val * option exn.

Abbreviation py_copy := (utils.py_copy list_has_copy).
Abbreviation py_update := (utils.py_update update_from_iterable).
Abbreviation combine_step := (utils.combine_step list_has_copy update_from_iterable).
Abbreviation combine_loop := (utils.combine_loop list_has_copy update_from_iterable).
Abbreviation combine := (utils.combine list_has_copy update_from_iterable).

(** *** Equations of the primitives *)

Lemma py_copy_dict (h : heap) l d :
  h !! l = Some (ODict d) ->
  py_copy (VRef l) h
  = (Return (VRef (fresh (dom h))), <[fresh (dom h) := ODict d]> h).
Proof.
  intros H. unfold utils.py_copy.
  rewrite (bind_return _ _ _ _ _ (deref_some _ _ _ H)). reflexivity.
Qed.

Lemma py_copy_seq (h : heap) l kind xs :
  h !! l = Some (OSeq kind xs) ->
  py_copy (VRef l) h
  = if match kind with KList => list_has_copy | KTuple => false end
    then (Return (VRef (fresh (dom h))), <[fresh (dom h) := OSeq kind xs]> h)
    else (Raise AttributeError, h).
Proof.
  intros H. unfold utils.py_copy.
  rewrite (bind_return _ _ _ _ _ (deref_some _ _ _ H)).
  destruct kind; [destruct list_has_copy|]; reflexivity.
Qed.

Lemma py_update_dict_dict (h : heap) l d l2 d2 :
  h !! l = Some (ODict d) -> h !! l2 = Some (ODict d2) ->
  py_update (VRef l) (VRef l2) h = (Return tt, <[l := ODict (d2 ∪ d)]> h).
Proof.
  intros H H2. unfold utils.py_update.
  rewrite (bind_return _ _ _ _ _ (deref_some _ _ _ H)).
  rewrite (bind_return _ _ h (Some (ODict d2)) h); [reflexivity|].
  rewrite (bind_return _ _ _ _ _ (deref_some _ _ _ H2)). reflexivity.
Qed.

Lemma py_update_seq (h : heap) l kind xs v :
  h !! l = Some (OSeq kind xs) ->
  py_update (VRef l) v h = (Raise AttributeError, h).
Proof.
  intros H. unfold utils.py_update.
  rewrite (bind_return _ _ _ _ _ (deref_some _ _ _ H)). reflexivity.
Qed.

Lemma py_add_seq (h : heap) l1 kind xs l2 ys :
  h !! l1 = Some (OSeq kind xs) -> h !! l2 = Some (OSeq kind ys) ->
  utils.py_add (VRef l1) (VRef l2) h
  = (Return (VRef (fresh (dom h))), <[fresh (dom h) := OSeq kind (xs ++ ys)]> h).
Proof.
  intros H1 H2. unfold utils.py_add.
  rewrite (bind_return _ _ _ _ _ (deref_some _ _ _ H1)).
  rewrite (bind_return _ _ _ _ _ (deref_some _ _ _ H2)).
  rewrite decide_True by reflexivity. reflexivity.
Qed.

(** *** combine on dictionaries *)

Lemma combine_step_first_dict (h : heap) l d :
  h !! l = Some (ODict d) ->
  combine_step VUnset (VRef l) h
  = (Return (VRef (fresh (dom h))), <[fresh (dom h) := ODict d]> h).
Proof.
  intros H. unfold utils.combine_step.
  apply try_return, py_copy_dict, H.
Qed.

Lemma combine_step_dict_dict (h : heap) l d l2 d2 :
  h !! l = Some (ODict d) -> h !! l2 = Some (ODict d2) ->
  combine_step (VRef l) (VRef l2) h
  = (Return (VRef l), <[l := ODict (d2 ∪ d)]> h).
Proof.
  intros H H2. unfold utils.combine_step.
  apply try_return.
  rewrite (bind_return _ _ _ _ _ (py_update_dict_dict _ _ _ _ _ H H2)).
  reflexivity.
Qed.

(** C4.  For dictionaries [a] and [b] of the store, [combine(a, b)] returns
    a new dictionary object whose entries are those of [a] updated with
    those of [b] (an entry of [b] wins over an entry of [a] for the same
    key), and [combine(a, None, b)] returns a new dictionary object
    holding the entries of [b]; the objects of the store are left as they
    were. *)
Theorem combine_mappings (h : heap) (la lb : loc) (a b : gmap string val) :
  h !! la = Some (ODict a) ->
  h !! lb = Some (ODict b) ->
  (exists l,
      h !! l = None /\
      combine [VRef la; VRef lb] h
      = (Return (VRef l), <[l := ODict (b ∪ a)]> h)) /\
  (forall k, (b ∪ a) !! k = match b !! k with
                            | Some v => Some v
                            | None => a !! k
                            end) /\
  (exists l h',
      combine [VRef la; VNone; VRef lb] h = (Return (VRef l), h') /\
      h !! l = None /\
      h' !! l = Some (ODict b) /\
      preserves h h').
Proof.
  intros Ha Hb. split; [|split].
  - exists (fresh (dom h)). split; [apply fresh_lookup|].
    unfold utils.combine. cbn [utils.combine_loop].
    rewrite (bind_return _ _ _ _ _ (combine_step_first_dict _ _ _ Ha)).
    erewrite bind_return.
    2:{ apply combine_step_dict_dict with (d := a) (d2 := b).
        - apply lookup_insert_eq.
        - apply lookup_alloc_old, Hb. }
    rewrite insert_insert_eq. reflexivity.
  - intros k. rewrite lookup_union. destruct (b !! k), (a !! k); reflexivity.
  - set (h1 := <[fresh (dom h) := ODict a]> h).
    assert (Hb1 : h1 !! lb = Some (ODict b)) by (apply lookup_alloc_old, Hb).
    exists (fresh (dom h1)), (<[fresh (dom h1) := ODict b]> h1).
    split; [|split; [|split]].
    + unfold utils.combine. cbn [utils.combine_loop].
      rewrite (bind_return _ _ _ _ _ (combine_step_first_dict _ _ _ Ha)).
      fold h1. cbn [utils.combine_step]. unfold ret at 1.
      erewrite bind_return by reflexivity.
      rewrite (bind_return _ _ _ _ _ (combine_step_first_dict _ _ _ Hb1)).
      reflexivity.
    + destruct (h !! fresh (dom h1)) eqn:E; [|reflexivity].
      apply (preserves_alloc h (ODict a)) in E. fold h1 in E.
      rewrite fresh_lookup in E. discriminate.
    + apply lookup_insert_eq.
    + eapply preserves_trans; apply preserves_alloc.
Qed.


Lemma preserves_fresh (h0 h : heap) :
  preserves h0 h -> h0 !! fresh (dom h) = None.
Proof.
  intros P. destruct (h0 !! fresh (dom h)) eqn:E; [|reflexivity].
  apply P in E. rewrite fresh_lookup in E. discriminate.
Qed.

Lemma preserves_alloc_after (h0 h : heap) o :
  preserves h0 h -> preserves h0 (<[fresh (dom h) := o]> h).
Proof. intros P. eapply preserves_trans; [exact P | apply preserves_alloc]. Qed.

Lemma fresh_dict_scalar (h0 h : heap) r :
  (forall l, r <> VRef l) -> fresh_dict h0 h r.
Proof. intros N l d E. destruct (N l E). Qed.

Lemma fresh_dict_new (h0 h : heap) l :
  h0 !! l = None -> fresh_dict h0 h (VRef l).
Proof. intros N l' d [= <-] _. exact N. Qed.

Lemma fresh_dict_seq (h0 h : heap) l kind xs :
  h !! l = Some (OSeq kind xs) -> fresh_dict h0 h (VRef l).
Proof. intros H l' d [= <-] H'. rewrite H in H'. discriminate. Qed.

Ltac inv_step :=
  match goal with
  | |- fresh_dict _ _ VUnset => apply fresh_dict_scalar; discriminate
  | |- fresh_dict _ _ (VInt _) => apply fresh_dict_scalar; discriminate
  | |- fresh_dict _ _ (VStr _) => apply fresh_dict_scalar; discriminate
  | |- fresh_dict _ _ (VRef (fresh (dom _))) =>
      apply fresh_dict_new, preserves_fresh; inv_step
  | F : fresh_dict ?h0 ?g (VRef ?l), H : ?g !! ?l = Some (ODict _)
    |- fresh_dict ?h0 _ (VRef ?l) =>
      apply fresh_dict_new; exact (F l _ eq_refl H)
  | H : ?g !! ?l = Some (OSeq _ _) |- fresh_dict _ ?g (VRef ?l) =>
      exact (fresh_dict_seq _ _ _ _ _ H)
  | |- preserves _ (<[fresh (dom _) := _]> _) =>
      apply preserves_alloc_after; inv_step
  | F : fresh_dict ?h0 ?g (VRef ?l), H : ?g !! ?l = Some (ODict _)
    |- preserves ?h0 (<[?l := _]> ?g) =>
      apply preserves_insert_new; [assumption | exact (F l _ eq_refl H)]
  | |- preserves _ _ => assumption
  | |- fresh_dict _ _ _ => assumption
  end.

Lemma combine_step_inv (h0 h : heap) (r v : val) :
  preserves h0 h -> fresh_dict h0 h r ->
  preserves h0 (combine_step r v h).2 /\
  forall r', (combine_step r v h).1 = Return r' ->
             fresh_dict h0 (combine_step r v h).2 r'.
Proof.
  intros P F.
  unfold utils.combine_step, try_except, utils.py_copy, utils.py_update, utils.py_add,
    bind, deref, alloc, store, ret, raise.
  repeat (case_match; simplify_map_eq/=).
  all: split; [|intros r' Hr'; simplify_eq/=].
  all: inv_step.
Qed.

Lemma combine_loop_preserves (h0 : heap) (args : list val) :
  forall (r : val) (h : heap),
    preserves h0 h -> fresh_dict h0 h r ->
    preserves h0 (combine_loop r args h).2.
Proof.
  induction args as [|v rest IH]; intros r h P F.
  - exact P.
  - cbn [utils.combine_loop]. unfold bind.
    destruct (combine_step_inv h0 h r v P F) as [P' F'].
    destruct (combine_step r v h) as [[r'|e] h'] eqn:E; cbn in *.
    + apply IH; [exact P' | apply F'; reflexivity].
    + exact P'.
Qed.

Lemma last_loop_store (l : list val) (h : heap) : (utils.last_loop l h).2 = h.
Proof.
  induction l as [|v l IH]; [reflexivity|].
  destruct v; cbn; first [exact IH | reflexivity].
Qed.

Lemma py_getitem_store (dct : val) (key : string) (h : heap) :
  (utils.py_getitem dct key h).2 = h.
Proof.
  unfold utils.py_getitem, bind, deref, ret, raise.
  repeat (case_match; simplify_eq/=); reflexivity.
Qed.

Lemma getfirst_loop_store (dct : val) (keys : list string) (h : heap) :
  (utils.getfirst_loop dct keys h).2 = h.
Proof.
  induction keys as [|k keys IH]; [reflexivity|].
  cbn [utils.getfirst_loop]. unfold try_except, bind.
  pose proof (py_getitem_store dct k h) as G.
  destruct (utils.py_getitem dct k h) as [[v|e] h']; cbn in *; subst h'.
  - reflexivity.
  - destruct (is_KeyError e); [exact IH | reflexivity].
Qed.

(** C10.  [combine], [last] and [getfirst] leave every object that was in
    the store before the call (so every argument dictionary and list) as
    it was: [combine] only writes to the copies it allocates, [last] and
    [getfirst] do not write at all. *)
Theorem helpers_do_not_mutate (h : heap) (args : list val) (dct : val)
    (keys : list string) (default : val) :
  preserves h (combine args h).2 /\
  (utils.last args h).2 = h /\
  (utils.getfirst dct keys default h).2 = h.
Proof.
  split; [|split].
  - apply combine_loop_preserves; [apply preserves_refl|].
    apply fresh_dict_scalar. discriminate.
  - apply last_loop_store.
  - unfold utils.getfirst, bind.
    pose proof (getfirst_loop_store dct keys h) as G.
    destruct (utils.getfirst_loop dct keys h) as [[[v|]|e] h']; cbn in *; subst h'.
    + reflexivity.
    + destruct default; reflexivity.
    + reflexivity.
Qed.

(** *** combine on sequences *)

Lemma combine_step_seq_seq (h : heap) l kind xs l2 ys :
  h !! l = Some (OSeq kind xs) -> h !! l2 = Some (OSeq kind ys) ->
  combine_step (VRef l) (VRef l2) h
  = (Return (VRef (fresh (dom h))), <[fresh (dom h) := OSeq kind (xs ++ ys)]> h).
Proof.
  intros H H2. unfold utils.combine_step.
  rewrite (try_caught _ _ _ h AttributeError h).
  - apply py_add_seq; assumption.
  - apply bind_raise. eapply py_update_seq, H.
  - reflexivity.
Qed.

(** C5.  For two lists, or two tuples, [xs] and [ys] of the store,
    [combine] returns a new list, or tuple, holding [xs ++ ys]; for text
    strings it returns their concatenation; [combine()] returns [UNSET]. *)
Theorem combine_sequences (h : heap) (kind : seq_kind) (la lb : loc)
    (xs ys : list val) (s t : string) :
  h !! la = Some (OSeq kind xs) ->
  h !! lb = Some (OSeq kind ys) ->
  (exists l h',
      combine [VRef la; VRef lb] h = (Return (VRef l), h') /\
      h !! l = None /\
      h' !! l = Some (OSeq kind (xs ++ ys)) /\
      preserves h h') /\
  combine [VStr s; VStr t] h = (Return (VStr (s ++ t)), h) /\
  combine [] h = (Return VUnset, h).
Proof.
  intros Ha Hb. split; [|split; reflexivity].
  unfold utils.combine. cbn [utils.combine_loop].
  assert (exists r h1, combine_step VUnset (VRef la) h = (Return (VRef r), h1)
                       /\ h1 !! r = Some (OSeq kind xs) /\ preserves h h1)
    as (r & h1 & E1 & Hr & P1).
  { unfold utils.combine_step, try_except. rewrite (py_copy_seq _ _ _ _ Ha).
    destruct (match kind with KList => list_has_copy | KTuple => false end).
    - eexists _, _. split; [reflexivity|].
      split; [apply lookup_insert_eq | apply preserves_alloc].
    - exists la, h. split; [reflexivity|]. split; [exact Ha | apply preserves_refl]. }
  rewrite (bind_return _ _ _ _ _ E1).
  rewrite (bind_return _ _ _ _ _
             (combine_step_seq_seq _ _ _ _ _ _ Hr (P1 _ _ Hb))).
  exists (fresh (dom h1)), (<[fresh (dom h1) := OSeq kind (xs ++ ys)]> h1).
  split; [reflexivity|]. split; [apply preserves_fresh, P1|].
  split; [apply lookup_insert_eq | apply preserves_alloc_after, P1].
Qed.

(** *** last *)

Lemma last_loop_skip (us rest : list val) (h : heap) :
  Forall (fun x => x = VUnset) us ->
  utils.last_loop (us ++ rest) h = utils.last_loop rest h.
Proof.
  induction 1 as [|u us -> _ IH]; [reflexivity|]. exact IH.
Qed.

Lemma last_loop_cut (l t : list val) (v : val) (h : heap) :
  v <> VUnset ->
  utils.last_loop (l ++ v :: t) h = utils.last_loop (l ++ [v]) h.
Proof.
  intros N. induction l as [|x l IH].
  - destruct v; [destruct (N eq_refl)|reflexivity..].
  - destruct x; cbn; first [exact IH | reflexivity].
Qed.

Lemma last_loop_none_end (l : list val) (h : heap) :
  utils.last_loop (l ++ [VNone]) h = utils.last_loop (l ++ [VUnset]) h.
Proof.
  induction l as [|x l IH]; [reflexivity|].
  destruct x; cbn; first [exact IH | reflexivity].
Qed.

Lemma last_loop_unset_mid (l t : list val) (h : heap) :
  utils.last_loop (l ++ VUnset :: t) h = utils.last_loop (l ++ t) h.
Proof.
  induction l as [|x l IH]; [reflexivity|].
  destruct x; cbn; first [exact IH | reflexivity].
Qed.

(** C6.  When [v] is the rightmost argument that is not [UNSET] (all the
    arguments [post] after it are [UNSET]), [last] returns [v], unless [v]
    is [None]: then it returns [UNSET]; it returns [UNSET] too when all
    arguments are [UNSET].  [last(1, 2, UNSET, 3, UNSET)] is [3] and
    [last(1, None, UNSET)] is [UNSET]. *)
Theorem last_rightmost (h : heap) (pre post : list val) (v : val) :
  Forall (fun x => x = VUnset) post ->
  v <> VUnset ->
  utils.last (pre ++ v :: post) h
  = (Return (if decide (v = VNone) then VUnset else v), h) /\
  utils.last post h = (Return VUnset, h) /\
  utils.last [VInt 1; VInt 2; VUnset; VInt 3; VUnset] h = (Return (VInt 3), h) /\
  utils.last [VInt 1; VNone; VUnset] h = (Return VUnset, h).
Proof.
  intros U N. apply Forall_rev in U.
  split; [|split; [|split; reflexivity]].
  - unfold utils.last. rewrite rev_app_distr. cbn [rev]. rewrite <- app_assoc.
    rewrite (last_loop_skip _ _ _ U). cbn [app].
    destruct v; first [destruct (N eq_refl) | reflexivity].
  - unfold utils.last. rewrite <- (app_nil_r (rev post)).
    apply (last_loop_skip _ [] _ U).
Qed.

(** *** combine and last on scalars *)

Lemma combine_loop_scalars (args : list val) :
  forall (r : val) (h : heap),
    Forall (fun v => is_scalar v = true) args ->
    is_scalar r = true -> r <> VNone ->
    no_merge (negb (is_unset r)) args = true ->
    combine_loop r args h = utils.last_loop (rev args ++ [r]) h.
Proof.
  induction args as [|v rest IH]; intros r h S Sr Nr M.
  - destruct r; first [reflexivity | discriminate | destruct (Nr eq_refl)].
  - apply Forall_cons in S as [Sv S].
    cbn [utils.combine_loop rev]. rewrite <- app_assoc. cbn [app].
    destruct v; cbn [is_scalar] in Sv; try discriminate.
    + (* UNSET: skipped *)
      rewrite last_loop_unset_mid.
      erewrite bind_return by reflexivity. apply IH; assumption.
    + (* None: resets *)
      rewrite last_loop_cut by discriminate. rewrite last_loop_none_end.
      erewrite bind_return by reflexivity. apply IH; [assumption|reflexivity|discriminate|exact M].
    + (* an integer: only after UNSET *)
      destruct r; cbn in M; try discriminate.
      rewrite last_loop_cut by discriminate.
      erewrite bind_return by reflexivity. apply IH; [assumption|reflexivity|discriminate|exact M].
    + (* a string: only after UNSET *)
      destruct r; cbn in M; try discriminate.
      rewrite last_loop_cut by discriminate.
      erewrite bind_return by reflexivity. apply IH; [assumption|reflexivity|discriminate|exact M].
Qed.

(** C7, as amended.  On arguments that are scalars, [UNSET] or [None],
    where no real value follows another real value without a [None]
    between them, [combine] returns what [last] returns. *)
Theorem combine_last_agree (args : list val) (h : heap) :
  Forall (fun v => is_scalar v = true) args ->
  no_merge false args = true ->
  combine args h = utils.last args h.
Proof.
  intros S M. unfold utils.combine, utils.last.
  rewrite (combine_loop_scalars args VUnset h S eq_refl) by (discriminate || exact M).
  rewrite <- (app_nil_r (rev args)) at 2.
  apply last_loop_unset_mid.
Qed.

(** *** getfirst *)

Lemma py_getitem_present (h : heap) l d key v :
  h !! l = Some (ODict d) -> d !! key = Some v ->
  utils.py_getitem (VRef l) key h = (Return v, h).
Proof.
  intros H K. unfold utils.py_getitem.
  rewrite (bind_return _ _ _ _ _ (deref_some _ _ _ H)), K. reflexivity.
Qed.

Lemma py_getitem_absent (h : heap) l d key :
  h !! l = Some (ODict d) -> d !! key = None ->
  utils.py_getitem (VRef l) key h = (Raise (KeyError key), h).
Proof.
  intros H K. unfold utils.py_getitem.
  rewrite (bind_return _ _ _ _ _ (deref_some _ _ _ H)), K. reflexivity.
Qed.

Lemma getfirst_loop_absent (h : heap) l d (keys rest : list string) :
  h !! l = Some (ODict d) ->
  Forall (fun k => d !! k = None) keys ->
  utils.getfirst_loop (VRef l) (keys ++ rest) h
  = utils.getfirst_loop (VRef l) rest h.
Proof.
  intros H. induction 1 as [|k keys K _ IH]; [reflexivity|].
  cbn [app utils.getfirst_loop].
  rewrite (try_caught _ _ _ h (KeyError k) h); [exact IH| |reflexivity].
  apply bind_raise, (py_getitem_absent _ _ _ _ H K).
Qed.

(** C8.  On a dictionary [d], [getfirst] returns the value of the first
    of the keys that [d] has; when [d] has none of [keys], it returns
    [default] if one was given ([None] is returned as it is) and raises
    [KeyError], with a message listing all of [keys], if none was. *)
Theorem getfirst_first_present (h : heap) (l : loc) (d : gmap string val)
    (pre post keys : list string) (key : string) (v default : val) :
  h !! l = Some (ODict d) ->
  Forall (fun k => d !! k = None) pre ->
  d !! key = Some v ->
  Forall (fun k => d !! k = None) keys ->
  utils.getfirst (VRef l) (pre ++ key :: post) default h = (Return v, h) /\
  utils.getfirst (VRef l) keys default h
  = (if decide (default = VUnset)
     then Raise (KeyError ("None of " ++ String.concat ", " keys ++ " found in dict"))
     else Return default, h) /\
  utils.getfirst (VRef l) keys VNone h = (Return VNone, h).
Proof.
  intros H Hpre Hkey Hkeys.
  assert (E : utils.getfirst_loop (VRef l) keys h = (Return None, h)).
  { rewrite <- (app_nil_r keys). rewrite (getfirst_loop_absent _ _ _ _ _ H Hkeys).
    reflexivity. }
  split; [|split].
  - unfold utils.getfirst.
    rewrite (bind_return _ _ h (Some v) h); [reflexivity|].
    rewrite (getfirst_loop_absent _ _ _ _ _ H Hpre). cbn [utils.getfirst_loop].
    apply try_return.
    rewrite (bind_return _ _ _ _ _ (py_getitem_present _ _ _ _ _ H Hkey)).
    reflexivity.
  - unfold utils.getfirst. rewrite (bind_return _ _ _ _ _ E).
    destruct default; reflexivity.
  - unfold utils.getfirst. rewrite (bind_return _ _ _ _ _ E). reflexivity.
Qed.

End RuntimeFacts.

(** ** The setting resolver *)

Lemma string_app_assoc (a b c : string) : (a ++ b) ++ c = a ++ (b ++ c).
Proof. induction a as [|x a IH]; [reflexivity|]. exact (f_equal (String x) IH). Qed.

Section SettingsFacts.

Variable settings : gmap string val.

Abbreviation from_settings := (utils.from_settings settings).
Abbreviation get_anymail_setting := (utils.get_anymail_setting settings).

Lemma configuration_message_eq (setting : string) (allow_bare : bool) :
  utils.configuration_message setting allow_bare
  = "You must set ANYMAIL_" ++ setting
    ++ " or ANYMAIL = {'" ++ setting ++ "': ...}"
    ++ (if allow_bare then " or " ++ setting else "")
    ++ " in your Django settings".
Proof.
  unfold utils.configuration_message.
  destruct allow_bare; repeat rewrite string_app_assoc; reflexivity.
Qed.

(** The lookups in the settings follow the order of the specification
    and do not touch the store. *)
Lemma from_settings_resolved (h : heap) (name : string) (default : val)
    (esp_name : option string) (allow_bare : bool) (anymail : gmap string val) :
  anymail_holds settings h anymail ->
  let setting := utils.setting_name esp_name name in
  from_settings name default esp_name allow_bare h
  = (resolved None (anymail !! setting) (settings !! ("ANYMAIL_" ++ setting))
       (settings !! setting) allow_bare default setting, h).
Proof.
  intros A setting. unfold utils.from_settings. fold setting.
  unfold resolved. rewrite <- configuration_message_eq.
  unfold try_except, bind, utils.getattr_settings, utils.py_getitem, bind, ret, raise.
  destruct A as [[-> ->]|(la & -> & Hla)].
  - rewrite lookup_empty. cbn [is_AttributeError_or_KeyError is_AttributeError orb first_some].
    destruct (settings !! ("ANYMAIL_" ++ setting)); [reflexivity|].
    cbn [is_AttributeError].
    destruct allow_bare.
    + destruct (settings !! setting); [reflexivity|]. destruct default; reflexivity.
    + destruct default; reflexivity.
  - rewrite (deref_some _ _ _ Hla).
    destruct (anymail !! setting); [reflexivity|].
    cbn [is_AttributeError_or_KeyError is_AttributeError is_KeyError orb first_some].
    destruct (settings !! ("ANYMAIL_" ++ setting)); [reflexivity|].
    cbn [is_AttributeError].
    destruct allow_bare.
    + destruct (settings !! setting); [reflexivity|]. destruct default; reflexivity.
    + destruct default; reflexivity.
Qed.

Lemma from_settings_store (h : heap) (name : string) (default : val)
    (esp_name : option string) (allow_bare : bool) :
  (from_settings name default esp_name allow_bare h).2 = h.
Proof.
  unfold utils.from_settings, try_except, bind, utils.getattr_settings,
    utils.py_getitem, bind, deref, ret, raise.
  repeat (case_match; simplify_eq/=); reflexivity.
Qed.

Lemma popped_absent (h : heap) (l : loc) (d : gmap string val) (name : string) :
  h !! l = Some (ODict d) -> d !! name = None -> popped h (VRef l) name = h.
Proof.
  intros H N. unfold popped. rewrite H, (delete_id _ _ N).
  apply insert_id, H.
Qed.

Lemma from_kwargs_found (h : heap) (name : string) (l : loc)
    (d : gmap string val) (v : val) :
  h !! l = Some (ODict d) -> d !! name = Some v ->
  utils.from_kwargs name (VRef l) h
  = (Return (if bool_decide (name = "username" \/ name = "password")
             then match v with VNone => None | _ => Some v end
             else Some v),
     popped h (VRef l) name).
Proof.
  intros H K.
  unfold utils.from_kwargs, try_except, utils.py_pop, bind, deref, store, ret, popped.
  rewrite H, K.
  destruct (bool_decide _); [destruct v|]; reflexivity.
Qed.

Lemma from_kwargs_missing (h : heap) (name : string) (kwargs : val)
    (d : gmap string val) :
  kwargs_holds h kwargs d -> d !! name = None ->
  utils.from_kwargs name kwargs h = (Return None, h).
Proof.
  intros [[-> _]|(l & -> & H)] K; [reflexivity|].
  unfold utils.from_kwargs, try_except, utils.py_pop, bind, deref, raise, ret.
  rewrite H, K. reflexivity.
Qed.

Lemma from_kwargs_store (h : heap) (name : string) (kwargs : val) :
  (utils.from_kwargs name kwargs h).2 = popped h kwargs name.
Proof.
  destruct kwargs as [| | | |l]; try reflexivity.
  destruct (h !! l) as [[d|kind xs]|] eqn:H.
  - destruct (d !! name) as [v|] eqn:K.
    + rewrite (from_kwargs_found _ _ _ _ _ H K). reflexivity.
    + rewrite (from_kwargs_missing h name (VRef l) d); [|right; eauto|exact K].
      symmetry. apply (popped_absent _ _ _ _ H K).
  - unfold utils.from_kwargs, try_except, utils.py_pop, bind, deref, popped.
    rewrite H. destruct kind; reflexivity.
  - unfold utils.from_kwargs, try_except, utils.py_pop, bind, deref, popped.
    rewrite H. reflexivity.
Qed.

(** C1.  For a name other than [username] and [password]:
    [get_anymail_setting] returns the first of the value of [name] in
    [kwargs], the entry of [settings.ANYMAIL], the [ANYMAIL_]-prefixed
    setting and (only when [allow_bare]) the bare setting; failing all,
    [default] if one was given, else it raises
    [AnymailConfigurationError] with a message that names the settings
    tried.  The key [name] is removed from [kwargs]. *)
Theorem get_anymail_setting_precedence (h : heap) (name : string) (default : val)
    (esp_name : option string) (kwargs : val) (allow_bare : bool)
    (d anymail : gmap string val) :
  name <> "username" -> name <> "password" ->
  kwargs_holds h kwargs d ->
  anymail_holds settings h anymail ->
  let setting := utils.setting_name esp_name name in
  get_anymail_setting name default esp_name kwargs allow_bare h
  = (resolved (d !! name) (anymail !! setting)
       (settings !! ("ANYMAIL_" ++ setting)) (settings !! setting)
       allow_bare default setting,
     popped h kwargs name).
Proof.
  intros Nu Np K A setting. unfold utils.get_anymail_setting.
  destruct (d !! name) as [v|] eqn:E.
  - destruct K as [[_ ->]|(l & -> & H)]; [rewrite lookup_empty in E; discriminate|].
    rewrite (bind_return _ _ _ _ _ (from_kwargs_found _ _ _ _ _ H E)).
    rewrite bool_decide_eq_false_2 by tauto. reflexivity.
  - rewrite (bind_return _ _ _ _ _ (from_kwargs_missing _ _ _ _ K E)).
    rewrite (from_settings_resolved _ _ _ _ _ _ A). fold setting.
    f_equal. destruct K as [[-> _]|(l & -> & H)]; [reflexivity|].
    symmetry. apply (popped_absent _ _ _ _ H E).
Qed.

(** C2.  When [name] is [username] or [password] and [kwargs] maps it to
    [None], the [None] is not returned: the result is the first of the
    entry of [settings.ANYMAIL], the [ANYMAIL_]-prefixed setting and (when
    [allow_bare]) the bare setting, then the default or the error. *)
Theorem null_credentials_fall_through (h : heap) (name : string) (default : val)
    (esp_name : option string) (l : loc) (allow_bare : bool)
    (d anymail : gmap string val) :
  name = "username" \/ name = "password" ->
  h !! l = Some (ODict d) ->
  d !! name = Some VNone ->
  anymail_holds settings (popped h (VRef l) name) anymail ->
  let setting := utils.setting_name esp_name name in
  get_anymail_setting name default esp_name (VRef l) allow_bare h
  = (resolved None (anymail !! setting)
       (settings !! ("ANYMAIL_" ++ setting)) (settings !! setting)
       allow_bare default setting,
     popped h (VRef l) name).
Proof.
  intros C H E A setting. unfold utils.get_anymail_setting.
  rewrite (bind_return _ _ _ _ _ (from_kwargs_found _ _ _ _ _ H E)).
  rewrite bool_decide_eq_true_2 by exact C.
  apply (from_settings_resolved _ _ _ _ _ _ A).
Qed.

(** C3, as amended.  [get_anymail_setting] removes [name] from [kwargs]
    whenever [kwargs] is a dictionary that has the key, whatever the
    outcome (the value returned, a [None] username or password skipped
    for the settings, the default, an error); a [kwargs] without the key
    and the rest of the store are left as they were. *)
Theorem kwargs_popped_when_present (h : heap) (name : string) (default : val)
    (esp_name : option string) (kwargs : val) (allow_bare : bool) :
  (get_anymail_setting name default esp_name kwargs allow_bare h).2
  = popped h kwargs name /\
  (forall l d, kwargs = VRef l -> h !! l = Some (ODict d) ->
     popped h kwargs name = <[l := ODict (delete name d)]> h /\
     (delete name d = d <-> d !! name = None)) /\
  ((forall l, kwargs <> VRef l) -> popped h kwargs name = h).
Proof.
  split; [|split].
  - unfold utils.get_anymail_setting, bind.
    pose proof (from_kwargs_store h name kwargs) as S.
    destruct (utils.from_kwargs name kwargs h) as [[[v|]|e] h']; cbn in S; subst h'.
    + reflexivity.
    + apply from_settings_store.
    + reflexivity.
  - intros l d -> H. unfold popped. rewrite H. split; [reflexivity|].
    split.
    + intros E. rewrite <- E. apply lookup_delete_eq.
    + apply delete_id.
  - intros N. destruct kwargs; try reflexivity. destruct (N l eq_refl).
Qed.

End SettingsFacts.

(** ** Attachments *)

Lemma string_length_app (s t : string) :
  String.length (s ++ t) = (String.length s + String.length t)%nat.
Proof.
  induction s as [|c s IH]; [reflexivity|].
  change (S (String.length (s ++ t)) = S (String.length s + String.length t)).
  f_equal. exact IH.
Qed.

Lemma rev_app_append (s t acc : string) :
  String.rev_app (s ++ t) acc = String.rev_app t (String.rev_app s acc).
Proof.
  revert acc. induction s as [|c s IH]; intros acc; [reflexivity|].
  change (String.rev_app (s ++ t) (String c acc)
          = String.rev_app t (String.rev_app s (String c acc))).
  apply IH.
Qed.

Lemma substring_prefix (s t : string) :
  String.substring 0 (String.length s) (s ++ t) = s.
Proof.
  induction s as [|c s IH].
  - destruct t; reflexivity.
  - change (String c (String.substring 0 (String.length s) (s ++ t)) = String c s).
    f_equal. exact IH.
Qed.

(** [unquote] strips one pair of enclosing angle brackets. *)
Lemma unquote_angle (s : string) : utils.unquote ("<" ++ s ++ ">") = s.
Proof.
  change ("<" ++ s ++ ">") with (String "<"%char (s ++ ">")).
  unfold utils.unquote.
  assert (L : String.length (String "<"%char (s ++ ">")) = S (S (String.length s))).
  { cbn [String.length]. rewrite string_length_app. cbn [String.length]. lia. }
  rewrite L.
  replace (1 <? S (S (String.length s)))%nat with true
    by (symmetry; apply Nat.ltb_lt; lia).
  cbn [utils.startswith]. change (Ascii.eqb utils.dquote "<"%char) with false.
  cbn [andb]. change (Ascii.eqb "<"%char "<"%char) with true. cbn [andb].
  assert (E : utils.endswith ">"%char (String "<"%char (s ++ ">")) = true).
  { unfold utils.endswith, String.rev. cbn [String.rev_app].
    rewrite rev_app_append. reflexivity. }
  rewrite E. unfold utils.strip_ends. rewrite L.
  cbn [Nat.sub String.substring]. rewrite Nat.sub_0_r.
  apply substring_prefix.
Qed.

Section AttachmentFacts.

Variable guess_type : string -> option string.
Variable DEFAULT_ATTACHMENT_MIME_TYPE : string.

Abbreviation Attachment_init :=
  (utils.Attachment.__init__ guess_type DEFAULT_ATTACHMENT_MIME_TYPE).

(** C9.  An [Attachment] made from a MIME part whose content disposition
    is [inline] has [inline] true and [content_id] equal to the part's
    [Content-ID] header; [cid] is the [Content-ID] without its angle
    brackets, and the empty string when the header is absent.  An
    [Attachment] made from a tuple has [inline] false, no [content_id] and
    an empty [cid]. *)
Theorem attachment_inline_content_id (m : utils.MIMEBase) (encoding : string)
    (name : option string) (content : utils.payload) (mimetype : option string) :
  utils.get_content_disposition m = Some "inline" ->
  let a := Attachment_init (utils.OfMIMEBase m) encoding in
  let t := Attachment_init (utils.OfTuple name content mimetype) encoding in
  utils.Attachment.inline a = true /\
  utils.Attachment.content_id a = utils.mime_get m "Content-ID" /\
  (forall s, utils.mime_get m "Content-ID" = Some ("<" ++ s ++ ">") ->
             utils.Attachment.cid a = s) /\
  (utils.mime_get m "Content-ID" = None -> utils.Attachment.cid a = "") /\
  utils.Attachment.inline t = false /\
  utils.Attachment.content_id t = None /\
  utils.Attachment.cid t = "".
Proof.
  intros D a t. subst a t.
  unfold utils.Attachment.__init__, utils.Attachment.init_fields.
  rewrite bool_decide_eq_true_2 by exact D.
  cbn [utils.Attachment.inline utils.Attachment.content_id utils.Attachment.cid].
  repeat split.
  - intros s ->. apply unquote_angle.
  - intros ->. reflexivity.
Qed.

End AttachmentFacts.

(** ** Instances on concrete inputs *)

Lemma combine_mappings_witness :
  (exists l,
      example_store !! l = None /\
      utils.combine true update_rejects [VRef 1%positive; VRef 2%positive] example_store
      = (Return (VRef l), <[l := ODict (dict_b ∪ dict_a)]> example_store)) /\
  (forall k, (dict_b ∪ dict_a) !! k = match dict_b !! k with
                                      | Some v => Some v
                                      | None => dict_a !! k
                                      end) /\
  (exists l h',
      utils.combine true update_rejects [VRef 1%positive; VNone; VRef 2%positive] example_store
      = (Return (VRef l), h') /\
      example_store !! l = None /\
      h' !! l = Some (ODict dict_b) /\
      preserves example_store h').
Proof.
  apply (combine_mappings true update_rejects example_store 1%positive 2%positive
           dict_a dict_b); reflexivity.
Defined.

Lemma combine_sequences_witness :
  (exists l h',
      utils.combine false update_rejects [VRef 3%positive; VRef 4%positive] example_store
      = (Return (VRef l), h') /\
      example_store !! l = None /\
      h' !! l = Some (OSeq KList ([VInt 1; VInt 2] ++ [VInt 3; VInt 4])) /\
      preserves example_store h') /\
  utils.combine false update_rejects [VStr "ab"; VStr "cd"] example_store
  = (Return (VStr ("ab" ++ "cd")), example_store) /\
  utils.combine false update_rejects [] example_store = (Return VUnset, example_store).
Proof.
  apply (combine_sequences false update_rejects example_store KList 3%positive
           4%positive);
    reflexivity.
Defined.

Lemma last_rightmost_witness :
  utils.last ([VInt 1; VInt 2; VUnset] ++ VInt 3 :: [VUnset]) ∅
  = (Return (if decide (VInt 3 = VNone) then VUnset else VInt 3), ∅) /\
  utils.last [VUnset] ∅ = (Return VUnset, ∅) /\
  utils.last [VInt 1; VInt 2; VUnset; VInt 3; VUnset] ∅ = (Return (VInt 3), ∅) /\
  utils.last [VInt 1; VNone; VUnset] ∅ = (Return VUnset, ∅).
Proof.
  apply (last_rightmost ∅ [VInt 1; VInt 2; VUnset] [VUnset] (VInt 3)).
  - repeat constructor.
  - discriminate.
Defined.

Lemma combine_last_agree_witness :
  utils.combine true update_rejects [VInt 1; VNone; VUnset; VStr "x"; VUnset] ∅
  = utils.last [VInt 1; VNone; VUnset; VStr "x"; VUnset] ∅.
Proof.
  apply (combine_last_agree true update_rejects).
  - repeat constructor.
  - reflexivity.
Defined.

(** C7 fails as stated: [combine(1, 2)] adds the two integers, [last(1, 2)]
    is [2]. *)
Lemma combine_last_differ :
  ~ (forall list_has_copy update_from_iterable (args : list val) (h : heap),
        Forall (fun v => is_scalar v = true) args ->
        utils.combine list_has_copy update_from_iterable args h = utils.last args h).
Proof.
  intros H.
  specialize (H true update_rejects [VInt 1; VInt 2] ∅).
  assert (S : Forall (fun v => is_scalar v = true) [VInt 1; VInt 2])
    by (repeat constructor).
  specialize (H S). vm_compute in H. discriminate H.
Qed.

Lemma getfirst_first_present_witness :
  utils.getfirst (VRef 1%positive) (["c"] ++ "a" :: []) VUnset example_store
  = (Return (VInt 1), example_store) /\
  utils.getfirst (VRef 1%positive) ["z"] VUnset example_store
  = (if decide (VUnset = VUnset)
     then Raise (KeyError ("None of " ++ String.concat ", " ["z"] ++ " found in dict"))
     else Return VUnset, example_store) /\
  utils.getfirst (VRef 1%positive) ["z"] VNone example_store
  = (Return VNone, example_store).
Proof.
  apply (getfirst_first_present example_store 1%positive dict_a ["c"] [] ["z"] "a"
           (VInt 1) VUnset).
  - reflexivity.
  - repeat constructor.
  - reflexivity.
  - repeat constructor.
Defined.

Lemma attachment_inline_content_id_witness :
  let a := utils.Attachment.__init__ (fun _ => None) "application/octet-stream"
             (utils.OfMIMEBase inline_part) "utf-8" in
  let t := utils.Attachment.__init__ (fun _ => None) "application/octet-stream"
             (utils.OfTuple (Some "file.bin") (utils.Bytes []) None) "utf-8" in
  utils.Attachment.inline a = true /\
  utils.Attachment.content_id a = utils.mime_get inline_part "Content-ID" /\
  (forall s, utils.mime_get inline_part "Content-ID" = Some ("<" ++ s ++ ">") ->
             utils.Attachment.cid a = s) /\
  (utils.mime_get inline_part "Content-ID" = None -> utils.Attachment.cid a = "") /\
  utils.Attachment.inline t = false /\
  utils.Attachment.content_id t = None /\
  utils.Attachment.cid t = "".
Proof.
  apply (attachment_inline_content_id (fun _ => None) "application/octet-stream"
           inline_part "utf-8" (Some "file.bin") (utils.Bytes []) None).
  reflexivity.
Defined.

(** The attachment of [Content-ID: <abc>], evaluated. *)
Example attachment_abc :
  let a := utils.Attachment.__init__ (fun _ => None) "application/octet-stream"
             (utils.OfMIMEBase inline_part) "utf-8" in
  utils.Attachment.inline a = true /\
  utils.Attachment.content_id a = Some "<abc>" /\
  utils.Attachment.cid a = "abc".
Proof. repeat split. Qed.

Lemma get_anymail_setting_precedence_witness :
  utils.get_anymail_setting example_settings "api_key" VUnset (Some "mailgun")
    (VRef 1%positive) true (settings_store api_key_kwargs)
  = (resolved (api_key_kwargs !! "api_key")
       (anymail_dict !! utils.setting_name (Some "mailgun") "api_key")
       (example_settings !! ("ANYMAIL_" ++ utils.setting_name (Some "mailgun") "api_key"))
       (example_settings !! utils.setting_name (Some "mailgun") "api_key")
       true VUnset (utils.setting_name (Some "mailgun") "api_key"),
     popped (settings_store api_key_kwargs) (VRef 1%positive) "api_key").
Proof.
  apply (get_anymail_setting_precedence example_settings
           (settings_store api_key_kwargs) "api_key" VUnset (Some "mailgun")
           (VRef 1%positive) true api_key_kwargs anymail_dict).
  - discriminate.
  - discriminate.
  - right. exists 1%positive. split; reflexivity.
  - right. exists 2%positive. split; reflexivity.
Defined.

(** The four sources of the Mailgun key, each winning over the next. *)
Example precedence_kwargs_nested_flat_bare :
  (utils.get_anymail_setting example_settings "api_key" VUnset (Some "mailgun")
     (VRef 1%positive) true (settings_store api_key_kwargs)).1
  = Return (VStr "kw") /\
  (utils.get_anymail_setting example_settings "api_key" VUnset (Some "mailgun")
     VNone true (settings_store ∅)).1
  = Return (VStr "nested") /\
  (utils.get_anymail_setting (delete "ANYMAIL" example_settings) "api_key" VUnset
     (Some "mailgun") VNone true ∅).1
  = Return (VStr "flat") /\
  (utils.get_anymail_setting (delete "ANYMAIL_MAILGUN_API_KEY" (delete "ANYMAIL" example_settings))
     "api_key" VUnset (Some "mailgun") VNone true ∅).1
  = Return (VStr "bare") /\
  (utils.get_anymail_setting (delete "ANYMAIL_MAILGUN_API_KEY" (delete "ANYMAIL" example_settings))
     "api_key" VUnset (Some "mailgun") VNone false ∅).1
  = Raise (AnymailConfigurationError
             "You must set ANYMAIL_MAILGUN_API_KEY or ANYMAIL = {'MAILGUN_API_KEY': ...} in your Django settings").
Proof. repeat split. Qed.

Lemma null_credentials_fall_through_witness :
  utils.get_anymail_setting example_settings "username" VUnset (Some "sendgrid")
    (VRef 1%positive) false (settings_store null_username_kwargs)
  = (resolved None
       (anymail_dict !! utils.setting_name (Some "sendgrid") "username")
       (example_settings !! ("ANYMAIL_" ++ utils.setting_name (Some "sendgrid") "username"))
       (example_settings !! utils.setting_name (Some "sendgrid") "username")
       false VUnset (utils.setting_name (Some "sendgrid") "username"),
     popped (settings_store null_username_kwargs) (VRef 1%positive) "username").
Proof.
  apply (null_credentials_fall_through example_settings
           (settings_store null_username_kwargs) "username" VUnset (Some "sendgrid")
           1%positive false null_username_kwargs anymail_dict).
  - left. reflexivity.
  - reflexivity.
  - reflexivity.
  - right. exists 2%positive. split; reflexivity.
Defined.

(** C3 fails as stated: a [None] username is not returned from [kwargs]
    (the first [try] block yields nothing), and yet the key is gone from
    [kwargs] afterwards. *)
Lemma kwargs_popped_on_fall_through :
  ~ (forall (settings : gmap string val) (h : heap) (name : string) (default : val)
            (esp_name : option string) (kwargs : val) (allow_bare : bool),
        (utils.from_kwargs name kwargs h).1 = Return None ->
        (utils.get_anymail_setting settings name default esp_name kwargs allow_bare h).2
        = h).
Proof.
  intros H.
  specialize (H example_settings (settings_store null_username_kwargs) "username"
                VUnset (Some "sendgrid") (VRef 1%positive) false eq_refl).
  apply (f_equal (fun h : heap => h !! 1%positive)) in H.
  vm_compute in H. discriminate H.
Qed.

Lemma kwargs_popped_when_present_witness :
  (utils.get_anymail_setting example_settings "username" VUnset (Some "sendgrid")
     (VRef 1%positive) false (settings_store null_username_kwargs)).2
  = <[1%positive := ODict (delete "username" null_username_kwargs)]>
      (settings_store null_username_kwargs).
Proof.
  destruct (kwargs_popped_when_present example_settings
              (settings_store null_username_kwargs) "username" VUnset
              (Some "sendgrid") (VRef 1%positive) false) as (E & P & _).
  rewrite E. apply (P 1%positive null_username_kwargs); reflexivity.
Defined.

(** * Further properties *)

(** ** The value merger *)

Section RuntimeExtras.

Variable list_has_copy : bool.
Variable update_from_iterable :
  heap -> gmap string val -> val -> gmap string val * option exn.

Abbreviation combine_step := (utils.combine_step list_has_copy update_from_iterable).
Abbreviation combine_loop := (utils.combine_loop list_has_copy update_from_iterable).
Abbreviation combine := (utils.combine list_has_copy update_from_iterable).

(** The loop over [pre ++ post] is the loop over [pre] followed by the
    loop over [post]. *)
Lemma combine_loop_app (pre post : list val) :
  forall (r : val) (h : heap),
    combine_loop r (pre ++ post) h
    = bind (combine_loop r pre) (fun r' => combine_loop r' post) h.
Proof.
  induction pre as [|v pre IH]; intros r h; [reflexivity|].
  cbn [app utils.combine_loop]. unfold bind.
  destruct (combine_step r v h) as [[r'|e] h']; [|reflexivity].
  rewrite IH. reflexivity.
Qed.

Lemma combine_loop_skips_unset (args : list val) :
  forall (r : val) (h : heap),
    combine_loop r args h
    = combine_loop r (filter (fun v => v <> VUnset) args) h.
Proof.
  induction args as [|v args IH]; intros r h; [reflexivity|].
  destruct (decide (v = VUnset)) as [->|N].
  - rewrite filter_cons_False by (intros N; apply N; reflexivity).
    cbn [utils.combine_loop utils.combine_step].
    erewrite bind_return by reflexivity. apply IH.
  - rewrite filter_cons_True by exact N.
    cbn [utils.combine_loop]. unfold bind.
    destruct (combine_step r v h) as [[r'|e] h']; [apply IH|reflexivity].
Qed.

(** X1.  [UNSET] arguments are skipped: [combine] gives the same result,
    and leaves the same store, with and without them. *)
Theorem combine_skips_unset (args : list val) (h : heap) :
  combine args h = combine (filter (fun v => v <> VUnset) args) h.
Proof. apply combine_loop_skips_unset. Qed.

(** X2.  A [None] argument discards what the arguments before it merged
    to, when merging them raised no error: the call continues from
    [UNSET], in the store the earlier arguments left. *)
Theorem combine_none_resets (pre post : list val) (h h1 : heap) (r : val) :
  combine pre h = (Return r, h1) ->
  combine (pre ++ VNone :: post) h = combine post h1.
Proof.
  intros E. unfold utils.combine in *.
  rewrite combine_loop_app, (bind_return _ _ _ _ _ E).
  cbn [utils.combine_loop utils.combine_step].
  erewrite bind_return by reflexivity. reflexivity.
Qed.

(** X3.  An error raised while merging the first arguments is raised by
    the whole call, whatever follows, also a [None] that would have
    discarded them. *)
Theorem combine_error_propagates (pre post : list val) (h h1 : heap) (e : exn) :
  combine pre h = (Raise e, h1) ->
  combine (pre ++ post) h = (Raise e, h1).
Proof.
  intros E. unfold utils.combine in *.
  rewrite combine_loop_app. apply bind_raise, E.
Qed.

Lemma combine_step_not_none (r v r' : val) (h : heap) :
  r <> VNone -> (combine_step r v h).1 = Return r' -> r' <> VNone.
Proof.
  intros N.
  unfold utils.combine_step, try_except, utils.py_copy, utils.py_update, utils.py_add,
    bind, deref, alloc, store, ret, raise.
  repeat (case_match; simplify_eq/=); intros E; simplify_eq/=; congruence.
Qed.

Lemma combine_loop_not_none (args : list val) :
  forall (r r' : val) (h : heap),
    r <> VNone -> (combine_loop r args h).1 = Return r' -> r' <> VNone.
Proof.
  induction args as [|v args IH]; intros r r' h N.
  - cbn. intros [= <-]. exact N.
  - cbn [utils.combine_loop]. unfold bind.
    pose proof (combine_step_not_none r v) as S.
    destruct (combine_step r v h) as [[r1|e] h1] eqn:E; [|discriminate].
    apply IH. apply (S r1 h N). rewrite E. reflexivity.
Qed.

(** X4.  [combine] never returns [None]: its result is [UNSET], one of
    the real arguments, or what merging built. *)
Theorem combine_never_none (args : list val) (h : heap) :
  (combine args h).1 <> Return VNone.
Proof.
  intros E.
  apply (combine_loop_not_none args VUnset VNone h); [discriminate|exact E|reflexivity].
Qed.


Lemma first_some_app (a b : list (option val)) :
  first_some (a ++ b)
  = match first_some a with
    | Some v => Some v
    | None => first_some b
    end.
Proof.
  induction a as [|[v|] a IH]; [reflexivity|reflexivity|exact IH].
Qed.

Lemma merged_lookup (rest : list (loc * gmap string val)) :
  forall (d0 : gmap string val) (k : string),
    merged d0 rest !! k
    = first_some (rev ((fun ld => ld.2 !! k) <$> rest) ++ [d0 !! k]).
Proof.
  induction rest as [|ld rest IH]; intros d0 k.
  - cbn. destruct (d0 !! k); reflexivity.
  - change (merged d0 (ld :: rest)) with (merged (ld.2 ∪ d0) rest).
    rewrite IH. cbn [fmap list_fmap rev]. rewrite <- app_assoc.
    rewrite !first_some_app. cbn [app first_some].
    rewrite lookup_union.
    destruct (first_some _); [reflexivity|].
    destruct (ld.2 !! k), (d0 !! k); reflexivity.
Qed.

Lemma combine_loop_dicts (rest : list (loc * gmap string val)) :
  forall (h : heap) (l' : loc) (acc : gmap string val),
    h !! l' = Some (ODict acc) ->
    Forall (fun ld => ld.1 <> l' /\ h !! ld.1 = Some (ODict ld.2)) rest ->
    combine_loop (VRef l') ((fun ld => VRef ld.1) <$> rest) h
    = (Return (VRef l'), <[l' := ODict (merged acc rest)]> h).
Proof.
  induction rest as [|[l d] rest IH]; intros h l' acc H F.
  - cbn. unfold ret. rewrite insert_id by exact H. reflexivity.
  - apply Forall_cons in F as [[N Hl] F]. cbn in N, Hl.
    cbn [fmap list_fmap utils.combine_loop].
    rewrite (bind_return _ _ _ _ _
               (combine_step_dict_dict list_has_copy update_from_iterable
                  _ _ _ _ _ H Hl)).
    rewrite (IH _ l' (d ∪ acc)).
    + rewrite insert_insert_eq. reflexivity.
    + apply lookup_insert_eq.
    + eapply Forall_impl; [exact F|]. intros ld [N' H']. split; [exact N'|].
      rewrite lookup_insert_ne by (intros E; apply N'; symmetry; exact E).
      exact H'.
Qed.

Lemma merged_app (d0 : gmap string val) (rest more : list (loc * gmap string val)) :
  merged (merged d0 rest) more = merged d0 (rest ++ more)%list.
Proof. unfold merged. symmetry. apply foldl_app. Qed.

Lemma combine_dicts_run (h : heap) (l0 : loc) (d0 : gmap string val)
    (rest : list (loc * gmap string val)) :
  h !! l0 = Some (ODict d0) ->
  Forall (fun ld => h !! ld.1 = Some (ODict ld.2)) rest ->
  combine (VRef l0 :: ((fun ld => VRef ld.1) <$> rest)) h
  = (Return (VRef (fresh (dom h))),
     <[fresh (dom h) := ODict (merged d0 rest)]> h).
Proof.
  intros H F.
  unfold utils.combine. cbn [utils.combine_loop].
  rewrite (bind_return _ _ _ _ _
             (combine_step_first_dict list_has_copy update_from_iterable _ _ _ H)).
  rewrite (combine_loop_dicts rest _ (fresh (dom h)) d0).
  - rewrite insert_insert_eq. reflexivity.
  - apply lookup_insert_eq.
  - eapply Forall_impl; [exact F|]. intros ld H'. cbn beta in H'.
    assert (N : ld.1 <> fresh (dom h)).
    { intros E. rewrite E, fresh_lookup in H'. discriminate. }
    split; [exact N|]. rewrite lookup_insert_ne by (intros E; apply N; symmetry; exact E).
    exact H'.
Qed.

(** X5.  [combine] of any number of dictionaries of the store returns a
    new dictionary; each key has the value of the last argument that has
    the key. *)
Theorem combine_dicts (h : heap) (l0 : loc) (d0 : gmap string val)
    (rest : list (loc * gmap string val)) :
  h !! l0 = Some (ODict d0) ->
  Forall (fun ld => h !! ld.1 = Some (ODict ld.2)) rest ->
  combine (VRef l0 :: ((fun ld => VRef ld.1) <$> rest)) h
  = (Return (VRef (fresh (dom h))),
     <[fresh (dom h) := ODict (merged d0 rest)]> h) /\
  h !! fresh (dom h) = None /\
  forall k, merged d0 rest !! k
            = first_some (rev ((fun ld => ld.2 !! k) <$> rest) ++ [d0 !! k]).
Proof.
  intros H F. split; [|split; [apply fresh_lookup | apply merged_lookup]].
  apply combine_dicts_run; assumption.
Qed.

Lemma combine_loop_fresh (h0 : heap) (args : list val) :
  forall (r r' : val) (h h' : heap),
    preserves h0 h -> fresh_dict h0 h r ->
    combine_loop r args h = (Return r', h') ->
    fresh_dict h0 h' r'.
Proof.
  induction args as [|v rest IH]; intros r r' h h' P F.
  - cbn. intros [= <- <-]. exact F.
  - cbn [utils.combine_loop]. unfold bind.
    destruct (combine_step_inv list_has_copy update_from_iterable h0 h r v P F)
      as [P' F'].
    destruct (combine_step r v h) as [[r1|e] h1] eqn:E; [|discriminate].
    cbn in P', F'. apply IH; [exact P' | apply F'; reflexivity].
Qed.

(** X6.  A dictionary returned by [combine] is never one of the objects
    the store held before the call: writing to the result cannot change
    an argument. *)
Theorem combine_result_is_new_dict (args : list val) (h h' : heap) (l : loc)
    (d : gmap string val) :
  combine args h = (Return (VRef l), h') ->
  h' !! l = Some (ODict d) ->
  h !! l = None.
Proof.
  intros E H.
  apply (combine_loop_fresh h args VUnset (VRef l) h h' (preserves_refl h)
           (fresh_dict_scalar h h VUnset ltac:(discriminate)) E l d eq_refl H).
Qed.

(** X7.  [combine] of a single list returns a new list when lists have a
    [copy] method, and the argument itself when they have none; of a
    single tuple, the argument itself. *)
Theorem combine_single_sequence (h : heap) (l : loc) (kind : seq_kind)
    (xs : list val) :
  h !! l = Some (OSeq kind xs) ->
  combine [VRef l] h
  = if match kind with KList => list_has_copy | KTuple => false end
    then (Return (VRef (fresh (dom h))), <[fresh (dom h) := OSeq kind xs]> h)
    else (Return (VRef l), h).
Proof.
  intros H. unfold utils.combine. cbn [utils.combine_loop utils.combine_step].
  unfold bind, try_except.
  rewrite (py_copy_seq list_has_copy _ _ _ _ H).
  destruct (match kind with KList => list_has_copy | KTuple => false end);
    reflexivity.
Qed.

Lemma combine_loop_integers (ns : list Z) :
  forall (n : Z) (h : heap),
    combine_loop (VInt n) (VInt <$> ns) h = (Return (VInt (foldl Z.add n ns)), h).
Proof.
  induction ns as [|m ns IH]; intros n h; [reflexivity|].
  cbn [fmap list_fmap utils.combine_loop foldl].
  erewrite bind_return by reflexivity. apply IH.
Qed.

Lemma combine_loop_strings (ss : list string) :
  forall (s : string) (h : heap),
    combine_loop (VStr s) (VStr <$> ss) h
    = (Return (VStr (foldl String.append s ss)), h).
Proof.
  induction ss as [|t ss IH]; intros s h; [reflexivity|].
  cbn [fmap list_fmap utils.combine_loop foldl].
  erewrite bind_return by reflexivity. apply IH.
Qed.

(** X8.  On integers [combine] returns their sum, on text strings their
    concatenation, in the order of the arguments. *)
Theorem combine_adds_scalars (n : Z) (ns : list Z) (s : string) (ss : list string)
    (h : heap) :
  combine (VInt <$> (n :: ns)) h = (Return (VInt (foldl Z.add n ns)), h) /\
  combine (VStr <$> (s :: ss)) h = (Return (VStr (foldl String.append s ss)), h).
Proof.
  split.
  - unfold utils.combine. cbn [fmap list_fmap utils.combine_loop].
    erewrite bind_return by reflexivity. apply combine_loop_integers.
  - unfold utils.combine. cbn [fmap list_fmap utils.combine_loop].
    erewrite bind_return by reflexivity. apply combine_loop_strings.
Qed.

(** X9.  A real scalar followed by a real value of another kind (an
    integer and a string, a scalar and a dictionary, list or tuple) is a
    [TypeError]; the store is not touched. *)
Theorem combine_mixed_scalars (a b : val) (h : heap) :
  is_scalar a = true -> is_real a = true -> is_real b = true ->
  same_scalar_kind a b = false ->
  combine [a; b] h = (Raise TypeError, h).
Proof.
  intros Sa Ra Rb K.
  destruct a; try discriminate; destruct b; try discriminate; reflexivity.
Qed.

(** ** combine, composed *)

(** X10.  Merging dictionaries in two calls gives the entries of merging
    them in one: [combine(combine(a, b...), c...)] holds what
    [combine(a, b..., c...)] holds. *)
Theorem combine_dicts_in_two_calls (h : heap) (l0 : loc) (d0 : gmap string val)
    (rest more : list (loc * gmap string val)) :
  h !! l0 = Some (ODict d0) ->
  Forall (fun ld => h !! ld.1 = Some (ODict ld.2)) rest ->
  Forall (fun ld => h !! ld.1 = Some (ODict ld.2)) more ->
  exists l1 h1 l2 h2 l3 h3,
    combine (VRef l0 :: ((fun ld => VRef ld.1) <$> rest)) h = (Return (VRef l1), h1) /\
    combine (VRef l1 :: ((fun ld => VRef ld.1) <$> more)) h1 = (Return (VRef l2), h2) /\
    combine (VRef l0 :: ((fun ld => VRef ld.1) <$> (rest ++ more)%list)) h
    = (Return (VRef l3), h3) /\
    h2 !! l2 = Some (ODict (merged d0 (rest ++ more)%list)) /\
    h3 !! l3 = Some (ODict (merged d0 (rest ++ more)%list)).
Proof.
  intros H F M.
  set (l1 := fresh (dom h)).
  set (h1 := <[l1 := ODict (merged d0 rest)]> h).
  assert (F1 : Forall (fun ld => h1 !! ld.1 = Some (ODict ld.2)) more).
  { eapply Forall_impl; [exact M|]. intros ld H'. cbn beta in H'.
    apply lookup_alloc_old, H'. }
  exists l1, h1, (fresh (dom h1)),
    (<[fresh (dom h1) := ODict (merged (merged d0 rest) more)]> h1),
    l1, (<[l1 := ODict (merged d0 (rest ++ more)%list)]> h).
  split; [apply (combine_dicts_run h l0 d0 rest H F)|].
  split; [apply (combine_dicts_run h1 l1 (merged d0 rest) more
                   (lookup_insert_eq _ _ _) F1)|].
  split; [apply (combine_dicts_run h l0 d0 (rest ++ more)%list H),
            Forall_app; split; assumption|].
  split; [rewrite lookup_insert_eq, merged_app; reflexivity|].
  apply lookup_insert_eq.
Qed.

(** ** combine and last *)

Lemma combine_step_real (r v r' : val) (h : heap) :
  is_real v = true -> (combine_step r v h).1 = Return r' -> is_real r' = true.
Proof.
  intros R.
  unfold utils.combine_step, try_except, utils.py_copy, utils.py_update, utils.py_add,
    bind, deref, alloc, store, ret, raise.
  repeat (case_match; simplify_eq/=); intros E; simplify_eq/=; reflexivity.
Qed.

Lemma last_loop_real_end (l : list val) (x y : val) (h : heap) :
  is_real x = true -> is_real y = true ->
  ((utils.last_loop (l ++ [x]) h).1 = Return VUnset <->
   (utils.last_loop (l ++ [y]) h).1 = Return VUnset).
Proof.
  intros X Y. induction l as [|v l IH].
  - destruct x, y; try discriminate; cbn; split; discriminate.
  - destruct v; cbn; first [exact IH | reflexivity].
Qed.

Lemma combine_loop_unset (args : list val) :
  forall (r r' : val) (h h' h0 : heap),
    r <> VNone ->
    combine_loop r args h = (Return r', h') ->
    (r' = VUnset <-> (utils.last_loop (rev args ++ [r]) h0).1 = Return VUnset).
Proof.
  induction args as [|v rest IH]; intros r r' h h' h0 N.
  - cbn. intros [= <- <-]. destruct r; cbn; split; congruence.
  - cbn [utils.combine_loop rev]. rewrite <- app_assoc. cbn [app]. unfold bind.
    pose proof (combine_step_not_none r v) as NN.
    pose proof (combine_step_real r v) as RR.
    destruct (combine_step r v h) as [[r1|e] h1] eqn:E; [|discriminate].
    specialize (NN r1 h N). specialize (RR r1 h). rewrite E in NN, RR.
    specialize (NN eq_refl). intros L.
    rewrite (IH r1 r' h1 h' h0 NN L).
    destruct (is_real v) eqn:V.
    + specialize (RR eq_refl eq_refl).
      rewrite (last_loop_cut (rev rest) [r] v h0)
        by (intros ->; discriminate).
      apply last_loop_real_end; assumption.
    + destruct v; try discriminate.
      * (* UNSET *)
        cbn in E. injection E as <- <-. rewrite last_loop_unset_mid. reflexivity.
      * (* None *)
        cbn in E. injection E as <- <-.
        rewrite (last_loop_cut (rev rest) [r] VNone h0) by discriminate.
        rewrite last_loop_none_end. reflexivity.
Qed.

(** X11.  Whenever [combine] returns, it returns [UNSET] exactly when
    [last] does on the same arguments: when no real value follows the
    last [None]. *)
Theorem combine_unset_iff_last_unset (args : list val) (h h' : heap) (r : val) :
  combine args h = (Return r, h') ->
  (r = VUnset <-> utils.last args h = (Return VUnset, h)).
Proof.
  intros E.
  rewrite (combine_loop_unset args VUnset r h h' h ltac:(discriminate) E).
  rewrite last_loop_unset_mid, app_nil_r. fold (utils.last args).
  pose proof (last_loop_store (rev args) h) as S. fold (utils.last args) in S.
  destruct (utils.last args h) as [o hs]. cbn in S |- *. subst hs.
  split; [intros ->; reflexivity | intros [= ->]; reflexivity].
Qed.


(** ** last *)

(** X12.  [last] ignores everything up to the last [None]. *)
Theorem last_after_none (pre post : list val) (h : heap) :
  utils.last (pre ++ VNone :: post) h = utils.last post h.
Proof.
  unfold utils.last. rewrite rev_app_distr. cbn [rev]. rewrite <- app_assoc.
  cbn [app]. rewrite last_loop_cut by discriminate.
  rewrite last_loop_none_end, last_loop_unset_mid, app_nil_r. reflexivity.
Qed.

Lemma last_loop_result (l : list val) (h : heap) :
  exists r, utils.last_loop l h = (Return r, h) /\
            (r = VUnset \/ (r ∈ l /\ is_real r = true)).
Proof.
  induction l as [|v l (r & E & R)].
  - exists VUnset. split; [reflexivity|left; reflexivity].
  - destruct v.
    + exists r. split; [exact E|].
      destruct R as [->|[I R]]; [left; reflexivity|right].
      split; [apply list_elem_of_further, I | exact R].
    + exists VUnset. split; [reflexivity|left; reflexivity].
    + exists (VInt n). split; [reflexivity|right].
      split; [apply list_elem_of_here | reflexivity].
    + exists (VStr s). split; [reflexivity|right].
      split; [apply list_elem_of_here | reflexivity].
    + exists (VRef l0). split; [reflexivity|right].
      split; [apply list_elem_of_here | reflexivity].
Qed.

(** X13.  [last] never raises and never writes to the store; it returns
    [UNSET] or one of its arguments, and never [None]. *)
Theorem last_result (args : list val) (h : heap) :
  exists r, utils.last args h = (Return r, h) /\
            r <> VNone /\
            (r = VUnset \/ (r ∈ args /\ is_real r = true)).
Proof.
  destruct (last_loop_result (rev args) h) as (r & E & R).
  exists r. split; [exact E|]. split.
  - destruct R as [->|[_ R]]; [discriminate|]. intros ->. discriminate.
  - destruct R as [->|[I R]]; [left; reflexivity|right]. split; [|exact R].
    apply list_elem_of_In, in_rev, list_elem_of_In, I.
Qed.

(** ** getfirst *)

(** X14.  On anything but a dictionary [getfirst] raises [TypeError] as
    soon as there is a key to look up, with or without a default; with
    no key at all it does not look at [dct]: it returns the default or
    raises [KeyError]. *)
Theorem getfirst_not_a_mapping (h : heap) (dct : val) (key : string)
    (keys : list string) (default : val) :
  not_a_mapping h dct ->
  utils.getfirst dct (key :: keys) default h = (Raise TypeError, h) /\
  utils.getfirst dct [] default h
  = (if decide (default = VUnset)
     then Raise (KeyError "None of  found in dict")
     else Return default, h).
Proof.
  intros N. split.
  - unfold utils.getfirst. cbn [utils.getfirst_loop].
    apply bind_raise. apply try_uncaught; [|reflexivity].
    apply bind_raise. unfold utils.py_getitem.
    destruct dct; try reflexivity.
    destruct N as (kind & xs & H).
    rewrite (bind_return _ _ _ _ _ (deref_some _ _ _ H)). reflexivity.
  - destruct default; reflexivity.
Qed.

End RuntimeExtras.

(** ** Text helpers and the content disposition *)











Lemma partition_head_app (c : ascii) (s t : string) :
  has_char c s = false ->
  utils.partition_head c (s ++ String c t) = s.
Proof.
  induction s as [|x s IH]; intros H.
  - change (utils.partition_head c (String c t) = "").
    cbn [utils.partition_head]. rewrite Ascii.eqb_refl. reflexivity.
  - cbn [has_char] in H. apply orb_false_iff in H as [E H].
    change (utils.partition_head c (String x (s ++ String c t)) = String x s).
    cbn [utils.partition_head]. rewrite Ascii.eqb_sym, E. f_equal. apply IH, H.
Qed.

Lemma partition_head_all (c : ascii) (s : string) :
  has_char c s = false -> utils.partition_head c s = s.
Proof.
  induction s as [|x s IH]; intros H; [reflexivity|].
  cbn [has_char] in H. apply orb_false_iff in H as [E H].
  cbn [utils.partition_head]. rewrite Ascii.eqb_sym, E. f_equal. apply IH, H.
Qed.











(** X15.  The content disposition is [None] exactly when the part has no
    header named [content-disposition], in any letter case. *)
Theorem content_disposition_none (m : utils.MIMEBase) :
  utils.get_content_disposition m = None <->
  Forall (fun kv => utils.lower kv.1 <> "content-disposition") (utils.headers m).
Proof.
  unfold utils.get_content_disposition, utils.mime_get.
  change (utils.lower "content-disposition") with "content-disposition".
  induction (utils.headers m) as [|kv hs IH].
  - split; [constructor|reflexivity].
  - cbn [List.find]. destruct (String.eqb_spec (utils.lower kv.1) "content-disposition") as [E|N].
    + split; [discriminate|]. intros F. apply Forall_cons in F as [N _].
      destruct (N E).
    + rewrite IH. split.
      * intros F. constructor; assumption.
      * intros F. apply Forall_cons in F as [_ F]. exact F.
Qed.

(** X16.  Parameters are dropped: of a header value [token;params] the
    content disposition is the token, stripped and in lower case. *)
Theorem content_disposition_drops_parameters (m : utils.MIMEBase)
    (token params : string) :
  utils.mime_get m "content-disposition" = Some (token ++ String ";"%char params) ->
  has_char ";"%char token = false ->
  utils.get_content_disposition m = Some (utils.lower (utils.strip token)).
Proof.
  intros H N. unfold utils.get_content_disposition. rewrite H.
  rewrite (partition_head_app _ _ _ N). reflexivity.
Qed.


(** ** Attachments *)

Lemma replace2_absent (a b : ascii) (new s : string) :
  has_char a s = false -> utils.replace2 a b new s = s.
Proof.
  induction s as [|c r IH]; intros H; [reflexivity|].
  cbn [has_char] in H. apply orb_false_iff in H as [E H].
  cbn [utils.replace2]. destruct r as [|c' r']; [reflexivity|].
  rewrite Ascii.eqb_sym, E. cbn [andb]. f_equal. apply IH, H.
Qed.

(** [unquote] strips one pair of enclosing double quotes. *)
Lemma unquote_quoted (s : string) :
  has_char utils.backslash s = false ->
  utils.unquote (String utils.dquote (s ++ String utils.dquote "")) = s.
Proof.
  intros N. unfold utils.unquote.
  assert (L : String.length (String utils.dquote (s ++ String utils.dquote ""))
              = S (S (String.length s))).
  { cbn [String.length]. rewrite string_length_app. cbn [String.length]. lia. }
  rewrite L.
  replace (1 <? S (S (String.length s)))%nat with true
    by (symmetry; apply Nat.ltb_lt; lia).
  cbn [utils.startswith]. rewrite Ascii.eqb_refl. cbn [andb].
  assert (E : utils.endswith utils.dquote
                (String utils.dquote (s ++ String utils.dquote "")) = true).
  { unfold utils.endswith, String.rev. cbn [String.rev_app].
    rewrite rev_app_append. reflexivity. }
  rewrite E. unfold utils.strip_ends. rewrite L.
  cbn [Nat.sub String.substring]. rewrite Nat.sub_0_r, substring_prefix.
  rewrite (replace2_absent _ _ _ _ N). apply replace2_absent, N.
Qed.

Section AttachmentExtras.

Variable guess_type : string -> option string.
Variable DEFAULT_ATTACHMENT_MIME_TYPE : string.

Abbreviation Attachment_init :=
  (utils.Attachment.__init__ guess_type DEFAULT_ATTACHMENT_MIME_TYPE).

(** X18.  A MIME part whose content disposition is not [inline] (absent,
    or [attachment]) gives [inline] false, no [content_id] and an empty
    [cid], also when the part has a [Content-ID] header; [name],
    [content] and [mimetype] are the part's file name, payload and
    content type, and the mimetype is not guessed from the file name. *)
Theorem attachment_not_inline (m : utils.MIMEBase) (encoding : string) :
  utils.get_content_disposition m <> Some "inline" ->
  let a := Attachment_init (utils.OfMIMEBase m) encoding in
  utils.Attachment.inline a = false /\
  utils.Attachment.content_id a = None /\
  utils.Attachment.cid a = "" /\
  utils.Attachment.name a = utils.get_filename m /\
  utils.Attachment.content a = utils.get_payload m /\
  utils.Attachment.mimetype a = utils.get_content_type m.
Proof.
  intros D a. subst a.
  unfold utils.Attachment.__init__, utils.Attachment.init_fields.
  rewrite bool_decide_eq_false_2 by exact D.
  cbn. destruct (utils.get_filename m); repeat split.
Qed.

(** The mimetype of an attachment given as a tuple: the explicit
    mimetype when there is one, whatever the file name; else the type
    guessed from the file name; else, without a file name or without a
    guess, the default attachment mimetype. *)
Lemma attachment_tuple_mimetype (name : option string) (n mt : string)
    (content : utils.payload) (encoding : string) :
  utils.Attachment.mimetype
    (Attachment_init (utils.OfTuple name content (Some mt)) encoding) = mt /\
  utils.Attachment.mimetype
    (Attachment_init (utils.OfTuple (Some n) content None) encoding)
  = match guess_type n with
    | Some guessed => guessed
    | None => DEFAULT_ATTACHMENT_MIME_TYPE
    end /\
  utils.Attachment.mimetype
    (Attachment_init (utils.OfTuple None content None) encoding)
  = DEFAULT_ATTACHMENT_MIME_TYPE.
Proof.
  split; [|split; reflexivity].
  destruct name; reflexivity.
Qed.

(** X19.  For an inline part, a [Content-ID] enclosed in double quotes
    (with no backslash inside) gives the text between the quotes as
    [cid]; a [Content-ID] of less than two characters is its own [cid]. *)
Theorem attachment_cid_quoted (m : utils.MIMEBase) (encoding : string)
    (s c : string) :
  utils.get_content_disposition m = Some "inline" ->
  let a := Attachment_init (utils.OfMIMEBase m) encoding in
  (utils.mime_get m "Content-ID"
   = Some (String utils.dquote (s ++ String utils.dquote "")) ->
   has_char utils.backslash s = false ->
   utils.Attachment.cid a = s) /\
  (utils.mime_get m "Content-ID" = Some c ->
   (String.length c <= 1)%nat ->
   utils.Attachment.cid a = c).
Proof.
  intros D a. subst a.
  unfold utils.Attachment.__init__, utils.Attachment.init_fields.
  rewrite bool_decide_eq_true_2 by exact D.
  split.
  - intros -> N. cbn [utils.Attachment.cid]. apply unquote_quoted, N.
  - intros -> L. cbn [utils.Attachment.cid]. unfold utils.unquote.
    replace (1 <? String.length c)%nat with false
      by (symmetry; apply Nat.ltb_ge; exact L).
    reflexivity.
Qed.

End AttachmentExtras.

(** ** The setting resolver, further *)

Section SettingsExtras.

Variable settings : gmap string val.

Abbreviation get_anymail_setting := (utils.get_anymail_setting settings).

Lemma get_anymail_setting_store (h : heap) (name : string) (default : val)
    (esp_name : option string) (kwargs : val) (allow_bare : bool) :
  (get_anymail_setting name default esp_name kwargs allow_bare h).2
  = popped h kwargs name.
Proof.
  unfold utils.get_anymail_setting, bind.
  pose proof (from_kwargs_store h name kwargs) as S.
  destruct (utils.from_kwargs name kwargs h) as [[[v|]|e] h']; cbn in S; subst h'.
  - reflexivity.
  - apply from_settings_store.
  - reflexivity.
Qed.

(** X20.  When [settings.ANYMAIL] is set to something that is not a
    dictionary ([None], a number, a string, a list, a tuple) and [kwargs]
    does not supply the value, the call raises [TypeError]: the
    [ANYMAIL_]-prefixed setting, the bare setting and the default are not
    tried. *)
Theorem anymail_not_a_mapping (h : heap) (name : string) (default : val)
    (esp_name : option string) (kwargs : val) (allow_bare : bool)
    (d : gmap string val) (a : val) :
  kwargs_holds h kwargs d ->
  d !! name = None ->
  settings !! "ANYMAIL" = Some a ->
  not_a_mapping h a ->
  get_anymail_setting name default esp_name kwargs allow_bare h
  = (Raise TypeError, h).
Proof.
  intros K E A N. unfold utils.get_anymail_setting.
  rewrite (bind_return _ _ _ _ _ (from_kwargs_missing _ _ _ _ K E)).
  unfold utils.from_settings. apply try_uncaught; [|reflexivity].
  unfold utils.getattr_settings. rewrite A.
  erewrite bind_return by reflexivity.
  unfold utils.py_getitem. destruct a; try reflexivity.
  destruct N as (kind & xs & H).
  rewrite (bind_return _ _ _ _ _ (deref_some _ _ _ H)). reflexivity.
Qed.

(** X21.  A value of [kwargs] other than [None] is returned, and its key
    removed from [kwargs], for every name ([username] and [password]
    too) and whatever the settings hold. *)
Theorem kwargs_value_returned (h : heap) (name : string) (default : val)
    (esp_name : option string) (l : loc) (allow_bare : bool)
    (d : gmap string val) (v : val) :
  h !! l = Some (ODict d) ->
  d !! name = Some v ->
  v <> VNone ->
  get_anymail_setting name default esp_name (VRef l) allow_bare h
  = (Return v, <[l := ODict (delete name d)]> h).
Proof.
  intros H E N. unfold utils.get_anymail_setting.
  rewrite (bind_return _ _ _ _ _ (from_kwargs_found _ _ _ _ _ H E)).
  unfold popped. rewrite H.
  destruct (bool_decide _); [destruct v|]; first [reflexivity | destruct (N eq_refl)].
Qed.

(** X22.  The value of [kwargs] is consumed: a second call for the same
    name, in the store the first call left, no longer finds it and
    resolves from the settings, the default or the error. *)
Theorem kwargs_value_consumed (h : heap) (name : string) (default : val)
    (esp_name : option string) (l : loc) (allow_bare : bool)
    (d anymail : gmap string val) (v : val) :
  h !! l = Some (ODict d) ->
  d !! name = Some v ->
  let h1 := (get_anymail_setting name default esp_name (VRef l) allow_bare h).2 in
  let setting := utils.setting_name esp_name name in
  anymail_holds settings h1 anymail ->
  get_anymail_setting name default esp_name (VRef l) allow_bare h1
  = (resolved None (anymail !! setting)
       (settings !! ("ANYMAIL_" ++ setting)) (settings !! setting)
       allow_bare default setting,
     h1).
Proof.
  intros H E h1 setting A.
  assert (E1 : h1 = <[l := ODict (delete name d)]> h).
  { subst h1. rewrite get_anymail_setting_store. unfold popped.
    rewrite H. reflexivity. }
  assert (H1 : h1 !! l = Some (ODict (delete name d)))
    by (rewrite E1; apply lookup_insert_eq).
  unfold utils.get_anymail_setting.
  rewrite (bind_return _ _ _ _ _
             (from_kwargs_missing h1 name (VRef l) (delete name d)
                (or_intror (ex_intro _ l (conj eq_refl H1)))
                (lookup_delete_eq d name))).
  apply (from_settings_resolved _ _ _ _ _ _ _ A).
Qed.


End SettingsExtras.

(** ** collect_all_methods *)

Section MethodsFacts.

Context {class method : Type} `{EqDecision method}.
Variable mro : class -> list class.
Variable getattr : class -> string -> option method.
Variable method_name : string.

Abbreviation found := (fun ancestor : class => getattr ancestor method_name).
Abbreviation collect_loop := (utils.collect_loop getattr).

Lemma collect_loop_nodup (ancestors : list class) :
  forall methods : list method,
    NoDup methods -> NoDup (collect_loop ancestors method_name methods).
Proof.
  induction ancestors as [|a rest IH]; intros methods N; [exact N|].
  cbn [utils.collect_loop]. destruct (getattr a method_name) as [v|]; [|apply IH, N].
  destruct (decide (v ∈ methods)) as [I|I]; [apply IH, N|].
  apply IH, NoDup_app. split; [exact N|]. split; [|apply NoDup_singleton].
  intros x Hx Hv. apply list_elem_of_singleton in Hv as ->. exact (I Hx).
Qed.

Lemma collect_loop_elem (ancestors : list class) :
  forall (methods : list method) (m : method),
    m ∈ collect_loop ancestors method_name methods <->
    m ∈ methods \/ exists a, a ∈ ancestors /\ getattr a method_name = Some m.
Proof.
  induction ancestors as [|a rest IH]; intros methods m.
  - cbn. split; [intros I; left; exact I|].
    intros [I|(a & I & _)]; [exact I|]. apply elem_of_nil in I. destruct I.
  - cbn [utils.collect_loop]. destruct (getattr a method_name) as [v|] eqn:G.
    + destruct (decide (v ∈ methods)) as [I|I]; rewrite IH.
      * split.
        -- intros [M|(b & B & Gb)]; [left; exact M|right].
           exists b. split; [apply list_elem_of_further, B | exact Gb].
        -- intros [M|(b & B & Gb)]; [left; exact M|].
           apply elem_of_cons in B as [->|B].
           ++ left. rewrite G in Gb. injection Gb as <-. exact I.
           ++ right. exists b. split; assumption.
      * rewrite elem_of_app, list_elem_of_singleton. split.
        -- intros [[M| ->]|(b & B & Gb)].
           ++ left. exact M.
           ++ right. exists a. split; [apply list_elem_of_here | exact G].
           ++ right. exists b. split; [apply list_elem_of_further, B | exact Gb].
        -- intros [M|(b & B & Gb)]; [left; left; exact M|].
           apply elem_of_cons in B as [->|B].
           ++ left. right. rewrite G in Gb. injection Gb as <-. reflexivity.
           ++ right. exists b. split; assumption.
    + rewrite IH. split.
      * intros [M|(b & B & Gb)]; [left; exact M|right].
        exists b. split; [apply list_elem_of_further, B | exact Gb].
      * intros [M|(b & B & Gb)]; [left; exact M|].
        apply elem_of_cons in B as [->|B]; [rewrite G in Gb; discriminate|].
        right. exists b. split; assumption.
Qed.

Lemma collect_loop_sublist (ancestors : list class) :
  forall methods : list method,
    exists extra,
      collect_loop ancestors method_name methods = (methods ++ extra)%list /\
      extra `sublist_of` omap found ancestors.
Proof.
  induction ancestors as [|a rest IH]; intros methods.
  - exists []. split; [symmetry; apply app_nil_r | constructor].
  - cbn [utils.collect_loop omap list_omap].
    destruct (getattr a method_name) as [v|].
    + destruct (decide (v ∈ methods)) as [I|I].
      * destruct (IH methods) as (extra & E & S). exists extra.
        split; [exact E | apply sublist_cons, S].
      * destruct (IH (methods ++ [v])%list) as (extra & E & S). exists (v :: extra).
        split; [rewrite E, <- app_assoc; reflexivity | apply sublist_skip, S].
    + apply IH.
Qed.

Lemma collect_loop_distinct (ancestors : list class) :
  forall methods : list method,
    NoDup (methods ++ omap found ancestors)%list ->
    collect_loop ancestors method_name methods
    = (methods ++ omap found ancestors)%list.
Proof.
  induction ancestors as [|a rest IH]; intros methods N.
  - cbn. symmetry. apply app_nil_r.
  - cbn [utils.collect_loop omap list_omap] in *.
    destruct (getattr a method_name) as [v|]; [|apply IH, N].
    destruct (decide (v ∈ methods)) as [I|I].
    + apply NoDup_app in N as (_ & D & _). destruct (D v I). apply list_elem_of_here.
    + rewrite IH; rewrite <- app_assoc; [reflexivity | exact N].
Qed.

(** X24.  The list that [collect_all_methods] returns has no duplicates;
    it holds exactly the attributes that [getattr] finds on the classes
    of the MRO, in the order of the MRO. *)
Theorem collect_all_methods_spec (cls : class) :
  let methods := utils.collect_all_methods mro getattr cls method_name in
  NoDup methods /\
  (forall m, m ∈ methods <->
             exists a, a ∈ mro cls /\ getattr a method_name = Some m) /\
  methods `sublist_of` omap found (mro cls).
Proof.
  unfold utils.collect_all_methods. split; [|split].
  - apply collect_loop_nodup, NoDup_nil_2.
  - intros m. rewrite collect_loop_elem. split.
    + intros [I|E]; [apply elem_of_nil in I; destruct I | exact E].
    + intros E. right. exact E.
  - destruct (collect_loop_sublist (mro cls) []) as (extra & E & S).
    rewrite E. exact S.
Qed.

(** X25.  When the attributes found along the MRO are all different (each
    class that has the method defines its own), the result lists them
    all, most derived class first. *)
Theorem collect_all_methods_distinct (cls : class) :
  NoDup (omap found (mro cls)) ->
  utils.collect_all_methods mro getattr cls method_name = omap found (mro cls).
Proof.
  intros N. unfold utils.collect_all_methods.
  apply (collect_loop_distinct (mro cls) [] N).
Qed.

End MethodsFacts.

(** ** ParsedEmail *)

Section ParsedEmailFacts.

Variable sanitize_address : string -> string -> outcome string.
Variable parseaddr : string -> string * string.

(** X26.  A [ParsedEmail] is built from the sanitized address without
    parsing it.  The first read of [name] or [email] parses the address
    once; from then on the object no longer changes and both properties
    return the two parts of that one parse, whichever is read first. *)
Theorem parsed_email_lazy (address encoding sanitized : string) :
  sanitize_address address encoding = Return sanitized ->
  let parsed :=
    {| utils.ParsedEmail.address := sanitized;
       utils.ParsedEmail._name := Some (parseaddr sanitized).1;
       utils.ParsedEmail._email := Some (parseaddr sanitized).2 |} in
  exists p,
    utils.ParsedEmail.__init__ sanitize_address address encoding = Return p /\
    utils.ParsedEmail.__str__ p = sanitized /\
    utils.ParsedEmail._name p = None /\
    utils.ParsedEmail._email p = None /\
    utils.ParsedEmail.name parseaddr p = (parsed, Some (parseaddr sanitized).1) /\
    utils.ParsedEmail.email parseaddr p = (parsed, Some (parseaddr sanitized).2) /\
    utils.ParsedEmail.name parseaddr parsed = (parsed, Some (parseaddr sanitized).1) /\
    utils.ParsedEmail.email parseaddr parsed = (parsed, Some (parseaddr sanitized).2) /\
    utils.ParsedEmail.__str__ parsed = sanitized.
Proof.
  intros S parsed. eexists. unfold utils.ParsedEmail.__init__. rewrite S.
  split; [reflexivity|].
  unfold utils.ParsedEmail.name, utils.ParsedEmail.email, utils.ParsedEmail._parse.
  cbn. destruct (parseaddr sanitized) as [n e]. repeat split.
Qed.

End ParsedEmailFacts.

(** ** Further instances on concrete inputs *)

Lemma combine_none_resets_witness :
  utils.combine true update_rejects ([VInt 1; VInt 2] ++ VNone :: [VStr "x"]) ∅
  = utils.combine true update_rejects [VStr "x"] ∅.
Proof.
  apply (combine_none_resets true update_rejects [VInt 1; VInt 2] [VStr "x"] ∅ ∅
           (VInt 3)).
  reflexivity.
Defined.

Lemma combine_error_propagates_witness :
  utils.combine true update_rejects ([VInt 1; VStr "a"] ++ [VNone; VInt 2]) ∅
  = (Raise TypeError, ∅).
Proof.
  apply (combine_error_propagates true update_rejects [VInt 1; VStr "a"]
           [VNone; VInt 2] ∅ ∅ TypeError).
  reflexivity.
Defined.

Lemma combine_dicts_witness :
  utils.combine true update_rejects
    (VRef 1%positive :: ((fun ld => VRef ld.1) <$> [(2%positive, dict_b); (1%positive, dict_a)]))
    example_store
  = (Return (VRef (fresh (dom example_store))),
     <[fresh (dom example_store)
       := ODict (merged dict_a [(2%positive, dict_b); (1%positive, dict_a)])]> example_store) /\
  example_store !! fresh (dom example_store) = None /\
  forall k, merged dict_a [(2%positive, dict_b); (1%positive, dict_a)] !! k
            = first_some (rev ((fun ld => ld.2 !! k)
                                 <$> [(2%positive, dict_b); (1%positive, dict_a)])
                          ++ [dict_a !! k]).
Proof.
  apply (combine_dicts true update_rejects example_store 1%positive dict_a
           [(2%positive, dict_b); (1%positive, dict_a)]).
  - reflexivity.
  - repeat constructor.
Defined.

Lemma combine_result_is_new_dict_witness :
  example_store !! 5%positive = None.
Proof.
  apply (combine_result_is_new_dict true update_rejects [VRef 1%positive]
           example_store (<[5%positive := ODict dict_a]> example_store)
           5%positive dict_a).
  - reflexivity.
  - reflexivity.
Defined.

Lemma combine_single_sequence_witness :
  utils.combine false update_rejects [VRef 3%positive] example_store
  = (Return (VRef 3%positive), example_store).
Proof.
  apply (combine_single_sequence false update_rejects example_store 3%positive
           KList [VInt 1; VInt 2]).
  reflexivity.
Defined.

Lemma combine_mixed_scalars_witness :
  utils.combine true update_rejects [VStr "a"; VRef 1%positive] example_store
  = (Raise TypeError, example_store).
Proof.
  apply (combine_mixed_scalars true update_rejects (VStr "a") (VRef 1%positive)
           example_store); reflexivity.
Defined.

Lemma combine_dicts_in_two_calls_witness :
  exists l1 h1 l2 h2 l3 h3,
    utils.combine true update_rejects
      (VRef 1%positive :: ((fun ld => VRef ld.1) <$> [(2%positive, dict_b)]))
      example_store = (Return (VRef l1), h1) /\
    utils.combine true update_rejects
      (VRef l1 :: ((fun ld => VRef ld.1) <$> [(1%positive, dict_a)])) h1
    = (Return (VRef l2), h2) /\
    utils.combine true update_rejects
      (VRef 1%positive
         :: ((fun ld => VRef ld.1) <$> ([(2%positive, dict_b)] ++ [(1%positive, dict_a)])%list))
      example_store = (Return (VRef l3), h3) /\
    h2 !! l2
    = Some (ODict (merged dict_a ([(2%positive, dict_b)] ++ [(1%positive, dict_a)])%list)) /\
    h3 !! l3
    = Some (ODict (merged dict_a ([(2%positive, dict_b)] ++ [(1%positive, dict_a)])%list)).
Proof.
  apply (combine_dicts_in_two_calls true update_rejects example_store 1%positive
           dict_a [(2%positive, dict_b)] [(1%positive, dict_a)]).
  - reflexivity.
  - repeat constructor.
  - repeat constructor.
Defined.

Lemma combine_unset_iff_last_unset_witness :
  VUnset = VUnset <->
  utils.last [VInt 1; VNone; VUnset] ∅ = (Return VUnset, ∅).
Proof.
  apply (combine_unset_iff_last_unset true update_rejects [VInt 1; VNone; VUnset]
           ∅ ∅ VUnset).
  reflexivity.
Defined.

Lemma getfirst_not_a_mapping_witness :
  utils.getfirst (VRef 3%positive) ("a" :: ["b"]) VNone example_store
  = (Raise TypeError, example_store) /\
  utils.getfirst (VRef 3%positive) [] VNone example_store
  = (if decide (VNone = VUnset)
     then Raise (KeyError "None of  found in dict")
     else Return VNone, example_store).
Proof.
  apply (getfirst_not_a_mapping example_store (VRef 3%positive) "a" ["b"] VNone).
  exists KList, [VInt 1; VInt 2]. reflexivity.
Defined.

Lemma content_disposition_drops_parameters_witness :
  utils.get_content_disposition inline_part
  = Some (utils.lower (utils.strip "inline")).
Proof.
  apply (content_disposition_drops_parameters inline_part "inline"
           " filename=logo.png"); reflexivity.
Defined.


Lemma attachment_not_inline_witness :
  let a := utils.Attachment.__init__ (fun _ => None) "application/octet-stream"
             (utils.OfMIMEBase attached_part) "utf-8" in
  utils.Attachment.inline a = false /\
  utils.Attachment.content_id a = None /\
  utils.Attachment.cid a = "" /\
  utils.Attachment.name a = utils.get_filename attached_part /\
  utils.Attachment.content a = utils.get_payload attached_part /\
  utils.Attachment.mimetype a = utils.get_content_type attached_part.
Proof.
  apply (attachment_not_inline (fun _ => None) "application/octet-stream"
           attached_part "utf-8").
  discriminate.
Defined.

Lemma attachment_cid_quoted_witness :
  let a := utils.Attachment.__init__ (fun _ => None) "application/octet-stream"
             (utils.OfMIMEBase quoted_part) "utf-8" in
  (utils.mime_get quoted_part "Content-ID"
   = Some (String utils.dquote ("abc" ++ String utils.dquote "")) ->
   has_char utils.backslash "abc" = false ->
   utils.Attachment.cid a = "abc") /\
  (utils.mime_get quoted_part "Content-ID" = Some "x" ->
   (String.length "x" <= 1)%nat ->
   utils.Attachment.cid a = "x").
Proof.
  apply (attachment_cid_quoted (fun _ => None) "application/octet-stream"
           quoted_part "utf-8" "abc" "x").
  reflexivity.
Defined.

Lemma anymail_not_a_mapping_witness :
  utils.get_anymail_setting null_anymail_settings "api_key" (VStr "fallback")
    (Some "mailgun") VNone true ∅
  = (Raise TypeError, ∅).
Proof.
  apply (anymail_not_a_mapping null_anymail_settings ∅ "api_key" (VStr "fallback")
           (Some "mailgun") VNone true ∅ VNone).
  - left. split; reflexivity.
  - reflexivity.
  - reflexivity.
  - exact I.
Defined.

Lemma kwargs_value_returned_witness :
  utils.get_anymail_setting example_settings "username" VUnset (Some "sendgrid")
    (VRef 1%positive) false (settings_store username_kwargs)
  = (Return (VStr "joe"),
     <[1%positive := ODict (delete "username" username_kwargs)]>
       (settings_store username_kwargs)).
Proof.
  apply (kwargs_value_returned example_settings (settings_store username_kwargs)
           "username" VUnset (Some "sendgrid") 1%positive false username_kwargs
           (VStr "joe")).
  - reflexivity.
  - reflexivity.
  - discriminate.
Defined.

Lemma kwargs_value_consumed_witness :
  let h1 := (utils.get_anymail_setting example_settings "api_key" VUnset
               (Some "mailgun") (VRef 1%positive) true
               (settings_store api_key_kwargs)).2 in
  let setting := utils.setting_name (Some "mailgun") "api_key" in
  utils.get_anymail_setting example_settings "api_key" VUnset (Some "mailgun")
    (VRef 1%positive) true h1
  = (resolved None (anymail_dict !! setting)
       (example_settings !! ("ANYMAIL_" ++ setting)) (example_settings !! setting)
       true VUnset setting,
     h1).
Proof.
  apply (kwargs_value_consumed example_settings (settings_store api_key_kwargs)
           "api_key" VUnset (Some "mailgun") 1%positive true api_key_kwargs
           anymail_dict (VStr "kw")).
  - reflexivity.
  - reflexivity.
  - right. exists 2%positive. split; reflexivity.
Defined.


Lemma collect_all_methods_distinct_witness :
  utils.collect_all_methods chain_mro own_getattr 0%nat "validate"
  = omap (fun ancestor => own_getattr ancestor "validate") (chain_mro 0%nat).
Proof.
  apply (collect_all_methods_distinct chain_mro own_getattr "validate" 0%nat).
  apply (bool_decide_unpack _). vm_compute. exact I.
Defined.

(** A class that does not override the method contributes nothing of its
    own: the method it inherits is listed once. *)
Example collect_all_methods_inherited :
  utils.collect_all_methods chain_mro inherited_getattr 0%nat "validate" = [0; 2]%nat /\
  utils.collect_all_methods chain_mro inherited_getattr 0%nat "missing" = [].
Proof. split; reflexivity. Qed.

Lemma parsed_email_lazy_witness :
  let parsed :=
    {| utils.ParsedEmail.address := "to@example.com";
       utils.ParsedEmail._name := Some (bare_parseaddr "to@example.com").1;
       utils.ParsedEmail._email := Some (bare_parseaddr "to@example.com").2 |} in
  exists p,
    utils.ParsedEmail.__init__ accept_address "to@example.com" "utf-8" = Return p /\
    utils.ParsedEmail.__str__ p = "to@example.com" /\
    utils.ParsedEmail._name p = None /\
    utils.ParsedEmail._email p = None /\
    utils.ParsedEmail.name bare_parseaddr p
    = (parsed, Some (bare_parseaddr "to@example.com").1) /\
    utils.ParsedEmail.email bare_parseaddr p
    = (parsed, Some (bare_parseaddr "to@example.com").2) /\
    utils.ParsedEmail.name bare_parseaddr parsed
    = (parsed, Some (bare_parseaddr "to@example.com").1) /\
    utils.ParsedEmail.email bare_parseaddr parsed
    = (parsed, Some (bare_parseaddr "to@example.com").2) /\
    utils.ParsedEmail.__str__ parsed = "to@example.com".
Proof.
  apply (parsed_email_lazy accept_address bare_parseaddr "to@example.com" "utf-8"
           "to@example.com").
  reflexivity.
Defined.
